(** * Verification of the MCP client, the LangGraph demo and the tool server

    A shallow embedding of the report pipeline of [mcp_client.py]
    (image extraction, report rendering, file naming, the run itself), of
    the two tool-calling nodes of [simple_langgraph_mcp.py] and of the
    credential handling of the tools in [server.py].

    Python [str] values are sequences of Unicode code points, so text is a
    list of code points ([N]); slicing, [len], [re] and [str.strip] all
    count code points, not bytes. *)

From Stdlib Require Import NArith Ascii String Decimal.
From stdpp Require Import base list gmap strings.

Local Open Scope N_scope.
Set Warnings "-clear-no-such-hyp".

(** ** Text *)

Module Text.

Abbreviation str := (list N).

(** An ASCII literal as a Python string. *)
Fixpoint py (s : string) : str :=
  match s with
  | EmptyString => []
  | String a s' => N_of_ascii a :: py s'
  end.

(** [ch.isspace()], which is also the class [\s] of [re] on [str] patterns
    and the set removed by [str.strip()]: CPython's [_PyUnicode_IsWhitespace]. *)
Definition is_space (c : N) : bool :=
  ((0x09 <=? c) && (c <=? 0x0D)) || ((0x1C <=? c) && (c <=? 0x20))
  || (c =? 0x85) || (c =? 0xA0) || (c =? 0x1680)
  || ((0x2000 <=? c) && (c <=? 0x200A))
  || (c =? 0x2028) || (c =? 0x2029) || (c =? 0x202F) || (c =? 0x205F)
  || (c =? 0x3000).

Definition is_ascii_alnum (c : N) : bool :=
  ((0x30 <=? c) && (c <=? 0x39)) || ((0x41 <=? c) && (c <=? 0x5A))
  || ((0x61 <=? c) && (c <=? 0x7A)).

(** The line feed. *)
Definition nl : str := [0x0A].

(** [s.startswith(p)] *)
Fixpoint startswith (p s : str) : bool :=
  match p, s with
  | [], _ => true
  | a :: p', b :: s' => (a =? b) && startswith p' s'
  | _ :: _, [] => false
  end.

(** [needle in hay] *)
Fixpoint contains (needle hay : str) : bool :=
  startswith needle hay ||
  match hay with
  | [] => false
  | _ :: hay' => contains needle hay'
  end.

(** [s.lstrip()], [s.rstrip()] and [s.strip()] without argument. *)
Fixpoint lstrip (s : str) : str :=
  match s with
  | c :: s' => if is_space c then lstrip s' else s
  | [] => []
  end.

Definition rstrip (s : str) : str := reverse (lstrip (reverse s)).

Definition strip (s : str) : str := rstrip (lstrip s).

(** [s.replace(a, b)] for one-character [a] and [b]. *)
Definition replace1 (a b : N) (s : str) : str :=
  (λ c, if c =? a then b else c) <$> s.

(** Decimal digits, most significant first. *)
Fixpoint uint_str (d : Decimal.uint) : str :=
  match d with
  | Decimal.Nil => []
  | Decimal.D0 d => 0x30 :: uint_str d
  | Decimal.D1 d => 0x31 :: uint_str d
  | Decimal.D2 d => 0x32 :: uint_str d
  | Decimal.D3 d => 0x33 :: uint_str d
  | Decimal.D4 d => 0x34 :: uint_str d
  | Decimal.D5 d => 0x35 :: uint_str d
  | Decimal.D6 d => 0x36 :: uint_str d
  | Decimal.D7 d => 0x37 :: uint_str d
  | Decimal.D8 d => 0x38 :: uint_str d
  | Decimal.D9 d => 0x39 :: uint_str d
  end.

(** [str(n)] for a non-negative [int]. *)
Definition str_int (n : nat) : str := uint_str (Nat.to_uint n).

(** [sep.join(l)] *)
Fixpoint join (sep : str) (l : list str) : str :=
  match l with
  | [] => []
  | [x] => x
  | x :: l' => x ++ sep ++ join sep l'
  end.

(** [l] occurs in [s] as a contiguous run of characters. *)
Definition infix (l s : str) : Prop := ∃ pre post, s = pre ++ l ++ post.

End Text.

(** ** Regular expressions, as far as the patterns of the program go *)

Module Regex.
Import Text.

(** The constructs the four image patterns are built from. [Cls p] is one
    character of a class (a literal [c] is the class [N.eqb c]); [Opt] is
    the greedy [?]; [PlusCls p] is the greedy [+] over a class. *)
Inductive re : Type :=
| Eps
| Cls (p : N → bool)
| Cat (r1 r2 : re)
| Alt (r1 r2 : re)
| Opt (r : re)
| PlusCls (p : N → bool).

(** One or more characters of the class, the longest run first: the order
    in which a backtracking matcher gives characters back. *)
Fixpoint plus_cls (p : N → bool) (s : str) : list (str * str) :=
  match s with
  | c :: s' =>
      if p c then (prod_map (cons c) id <$> plus_cls p s') ++ [([c], s')]
      else []
  | [] => []
  end.

(** All the ways [r] matches a prefix of [s], as (matched, rest), in the
    order a backtracking matcher tries them: the head is the match of
    [re]. *)
Fixpoint matches (r : re) (s : str) : list (str * str) :=
  match r with
  | Eps => [([], s)]
  | Cls p =>
      match s with
      | c :: s' => if p c then [([c], s')] else []
      | [] => []
      end
  | Cat r1 r2 =>
      m1 ← matches r1 s;
      m2 ← matches r2 m1.2;
      [(m1.1 ++ m2.1, m2.2)]
  | Alt r1 r2 => matches r1 s ++ matches r2 s
  | Opt r => matches r s ++ [([], s)]
  | PlusCls p => plus_cls p s
  end.

(** A literal string. *)
Definition lit (l : str) : re := foldr (λ c r, Cat (Cls (N.eqb c)) r) Eps l.

(** A pattern of the shape [prefix(group)]: one capture group that runs to
    the end of the pattern. *)
Record pattern : Type := Pattern { pre : re; grp : re }.

(** The match of the pattern at the start of [s], if any: the whole match
    and the text of the group. *)
Definition match_at (p : pattern) (s : str) : option (str * str) :=
  head (m1 ← matches (pre p) s;
        m2 ← matches (grp p) m1.2;
        [(m1.1 ++ m2.1, m2.1)]).

(** [re.findall(p, s)] for a pattern with one group: the group of every
    match, found left to right, the search resuming where the previous
    match ended. [skip] counts the characters of the previous match still
    to pass over. (The patterns here never match the empty string.) *)
Fixpoint findall_from (p : pattern) (skip : nat) (s : str) : list str :=
  match skip, s with
  | S n, _ :: s' => findall_from p n s'
  | S _, [] => []
  | O, _ =>
      match match_at p s with
      | Some (whole, g) =>
          g :: match s with
               | [] => []
               | _ :: s' => findall_from p (Nat.pred (length whole)) s'
               end
      | None =>
          match s with
          | [] => []
          | _ :: s' => findall_from p 0%nat s'
          end
      end
  end.

Definition findall (p : pattern) (s : str) : list str := findall_from p 0%nat s.

End Regex.

(** ** Exceptions and effects *)

Module Effects.
Import Text.

(** The exceptions the modelled code meets. [CollaboratorError] is
    anything raised by an outside party (the tool host, the planner, a
    search client); [RequestException] is the one class [server.py]
    catches by name. [OSError] is the error of a device that takes no
    more of a file (no space left). *)
Inductive exn : Type :=
| PermissionError (path : str)
| FileExistsError (path : str)
| UnicodeEncodeError
| OSError (path : str)
| IndexError
| RequestException (msg : str)
| CollaboratorError (msg : str).

(** A computation over a state [S] that returns or raises; the state at
    the moment of the exception is kept, as it is in Python. *)
Definition M (S A : Type) : Type := S → (exn + A) * S.

Definition ret {S A} (a : A) : M S A := λ s, (inr a, s).
Definition raise {S A} (e : exn) : M S A := λ s, (inl e, s).
Definition bind {S A B} (m : M S A) (k : A → M S B) : M S B :=
  λ s, match m s with
       | (inl e, s') => (inl e, s')
       | (inr a, s') => k a s'
       end.
Definition get {S} : M S S := λ s, (inr s, s).
Definition modify {S} (f : S → S) : M S unit := λ s, (inr (), f s).

(** The result of an awaited call to an outside party, lifted. *)
Definition await {S A} (r : exn + A) : M S A :=
  match r with
  | inl e => raise e
  | inr a => ret a
  end.

(** The messages of a conversation, by class. *)
Inductive message : Type :=
| HumanMessage (content : str)
| AIMessage (content : str)
| ToolMessage (content : str).

Definition content (m : message) : str :=
  match m with
  | HumanMessage c | AIMessage c | ToolMessage c => c
  end.

#[global] Instance M_ret {S} : MRet (M S) := λ A, ret.
#[global] Instance M_bind {S} : MBind (M S) := λ A B k m, bind m k.

End Effects.

(** ** [mcp_client.py]: image extraction and the report *)

Module McpClient.
Import Text Regex Effects.

Definition not_space (c : N) : bool := negb (is_space c).

(** [https?://[^\s]+] *)
Definition url_any : re :=
  Cat (lit (py "http")) (Cat (Opt (Cls (N.eqb 0x73)))
    (Cat (lit (py "://")) (PlusCls not_space))).

(** [https?://[^\s]+\.(?:jpg|jpeg|png|gif)] *)
Definition url_img : re :=
  Cat (lit (py "http")) (Cat (Opt (Cls (N.eqb 0x73)))
    (Cat (lit (py "://")) (Cat (PlusCls not_space)
      (Cat (Cls (N.eqb 0x2E))
        (Alt (lit (py "jpg")) (Alt (lit (py "jpeg"))
          (Alt (lit (py "png")) (lit (py "gif"))))))))).

(** The four patterns, in the order of the list in the source. The
    pictographs are U+1F5BC U+FE0F (framed picture), U+1F52D (telescope)
    and U+1F517 (link). *)
Definition pat_image_url : pattern :=
  Pattern (lit ([0x1F5BC; 0xFE0F] ++ py " Image URL: ")) url_any.
Definition pat_hd_image : pattern :=
  Pattern (lit ([0x1F52D] ++ py " HD Image: ")) url_any.
Definition pat_link_image : pattern :=
  Pattern (lit ([0x1F517] ++ py " Image: ")) url_img.
Definition pat_bare : pattern := Pattern Eps url_img.

Definition nasa_patterns : list pattern :=
  [pat_image_url; pat_hd_image; pat_link_image; pat_bare].

(** The loop [for img in images: if img not in seen: ...], with the set
    [seen] passed along; the result is [unique_images]. *)
Fixpoint unique_from (seen : gset str) (images : list str) : list str :=
  match images with
  | [] => []
  | img :: rest =>
      if decide (img ∈ seen) then unique_from seen rest
      else img :: unique_from ({[img]} ∪ seen) rest
  end.

(** [images] after the loop over the patterns. *)
Definition raw_images (text : str) : list str :=
  foldl (λ images pattern, images ++ findall pattern text) [] nasa_patterns.

Definition extract_images_from_text (text : str) : list str :=
  unique_from ∅ (raw_images text).

(** [all_images] of [save_to_markdown]: the images of each output,
    appended in the order of the outputs. *)
Definition all_images (tool_outputs : list str) : list str :=
  foldl (λ acc output, acc ++ extract_images_from_text output) [] tool_outputs.

Definition caption_of (img_url : str) : str :=
  if contains (py "apod") img_url || contains (py "astronomy") img_url
  then py "Astronomy Picture"
  else if contains (py "mars") img_url then py "Mars Rover Photo"
  else py "Image".

(** *** The clock *)

Record datetime : Type :=
  { year : nat; month : nat; day : nat; hour : nat; minute : nat; second : nat }.

(** [strftime] prints the month, day, hour, minute and second in two
    digits and the year in four (for the years from 1000 on, which every
    reading of the clock is). *)
Definition digit (n : nat) : N := 0x30 + N.of_nat (n mod 10).

Definition two_digits (n : nat) : str := [digit (n / 10); digit n].

Definition four_digits (n : nat) : str :=
  two_digits (n / 100) ++ two_digits (n mod 100).

(** [strftime("%Y%m%d_%H%M%S")] *)
Definition strftime_compact (d : datetime) : str :=
  four_digits (year d) ++ two_digits (month d) ++ two_digits (day d) ++ py "_"
  ++ two_digits (hour d) ++ two_digits (minute d) ++ two_digits (second d).

(** [strftime('%Y-%m-%d %H:%M:%S')] *)
Definition strftime_iso (d : datetime) : str :=
  four_digits (year d) ++ py "-" ++ two_digits (month d) ++ py "-"
  ++ two_digits (day d) ++ py " " ++ two_digits (hour d) ++ py ":"
  ++ two_digits (minute d) ++ py ":" ++ two_digits (second d).

(** [a < b] on strings: the order by code points, a proper prefix first. *)
Fixpoint str_lt (a b : str) : bool :=
  match a, b with
  | _, [] => false
  | [], _ :: _ => true
  | x :: a', y :: b' => (x <? y) || ((x =? y) && str_lt a' b')
  end.

(** [a < b] on the readings of the clock. *)
Definition earlier (a b : datetime) : Prop :=
  (year a < year b)%nat ∨ year a = year b ∧
  ((month a < month b)%nat ∨ month a = month b ∧
  ((day a < day b)%nat ∨ day a = day b ∧
  ((hour a < hour b)%nat ∨ hour a = hour b ∧
  ((minute a < minute b)%nat ∨ minute a = minute b ∧
   (second a < second b)%nat)))).

(** The readings for which the two formats above are exact. *)
Definition in_range (d : datetime) : Prop :=
  (1000 ≤ year d ∧ year d < 100 * 100 ∧ month d < 100 ∧ day d < 100
   ∧ hour d < 100 ∧ minute d < 100 ∧ second d < 100)%nat.

(** *** The file name *)

Section Filename.

(** [ch.isalnum()] on the code points above ASCII: a table of the Unicode
    database, which the program does not contain. *)
Variable unicode_isalnum : N → bool.

(** The class [\w]: alphanumeric or the underscore. *)
Definition is_word (c : N) : bool :=
  if c <? 0x80 then is_ascii_alnum c || (c =? 0x5F) else unicode_isalnum c.

(** The characters outside [[^\w\s-]], those [re.sub] leaves. *)
Definition kept (c : N) : bool := is_word c || is_space c || (c =? 0x2D).

(** [re.sub(r'[^\w\s-]', '', question)[:50].strip().replace(' ', '_')] *)
Definition safe_question (question : str) : str :=
  replace1 0x20 0x5F (strip (take 50 (filter (λ c, kept c = true) question))).

(** [f"{timestamp}_{safe_question}.md"] *)
Definition filename (now : datetime) (question : str) : str :=
  strftime_compact now ++ py "_" ++ safe_question question ++ py ".md".

(** The characters a slug is made from, one by one: the ASCII digits
    and letters, the underscore, what the Unicode table counts as
    alphanumeric above ASCII, whitespace and the hyphen. *)
Definition in_slug (c : N) : Prop :=
  0x30 ≤ c ≤ 0x39 ∨ 0x41 ≤ c ≤ 0x5A ∨ 0x61 ≤ c ≤ 0x7A ∨ c = 0x5F
  ∨ (0x80 ≤ c ∧ unicode_isalnum c = true)
  ∨ is_space c = true ∨ c = 0x2D.

(** The slug as the specification words it: the characters other than
    alphanumerics, whitespace and the hyphen are dropped, whitespace is
    collapsed to underscores, and the length is capped. *)
Definition is_alnum (c : N) : bool :=
  if c <? 0x80 then is_ascii_alnum c else unicode_isalnum c.

Fixpoint collapse_whitespace (in_run : bool) (s : str) : str :=
  match s with
  | [] => []
  | c :: s' =>
      if is_space c then
        if in_run then collapse_whitespace true s'
        else 0x5F :: collapse_whitespace true s'
      else c :: collapse_whitespace false s'
  end.

Definition slug_as_specified (question : str) : str :=
  take 50 (collapse_whitespace false
             (filter (λ c, is_alnum c || is_space c || (c =? 0x2D) = true) question)).

End Filename.

(** *** The body of the report *)

(** The body of the loop over [enumerate(all_images, 1)]. *)
Definition image_block (i : nat) (img_url : str) : str :=
  let caption := caption_of img_url in
  py "### " ++ caption ++ py " " ++ str_int i ++ nl ++ nl
  ++ py "![" ++ caption ++ py " " ++ str_int i ++ py "](" ++ img_url ++ py ")" ++ nl ++ nl
  ++ py "[Direct Link](" ++ img_url ++ py ")" ++ nl ++ nl.

Definition truncation_marker : str := nl ++ py "... (truncated)".

(** What the loop over [enumerate(tool_outputs, 1)] puts between the
    fences: [output[:2000]], and the marker when [len(output) > 2000]. *)
Definition output_body (output : str) : str :=
  take 2000 output
  ++ (if decide (2000 < length output)%nat then truncation_marker else []).

Definition output_block (i : nat) (output : str) : str :=
  py "### Tool Output " ++ str_int i ++ nl ++ nl
  ++ py "```" ++ nl
  ++ output_body output
  ++ nl ++ py "```" ++ nl ++ nl.

(** [enumerate(l, 1)] followed by the concatenation of the blocks. *)
Fixpoint blocks_from (block : nat → str → str) (i : nat) (l : list str) : str :=
  match l with
  | [] => []
  | x :: l' => block i x ++ blocks_from block (S i) l'
  end.

Definition images_section (images : list str) : str :=
  match images with
  | [] => []
  | _ => py "## Images" ++ nl ++ nl ++ blocks_from image_block 1 images
  end.

Definition outputs_open : str :=
  py "## Tool Outputs" ++ nl ++ nl
  ++ py "<details>" ++ nl
  ++ py "<summary>Click to expand raw tool outputs</summary>" ++ nl ++ nl.

Definition outputs_close : str := py "</details>" ++ nl.

Definition outputs_section (tool_outputs : list str) : str :=
  match tool_outputs with
  | [] => []
  | _ => outputs_open ++ blocks_from output_block 1 tool_outputs ++ outputs_close
  end.

Definition md_head (now : datetime) (question answer : str) : str :=
  py "# MCP Query Result" ++ nl ++ nl
  ++ py "**Date:** " ++ strftime_iso now ++ nl ++ nl
  ++ py "## Question" ++ nl ++ nl ++ question ++ nl ++ nl
  ++ py "## Answer" ++ nl ++ nl ++ answer ++ nl ++ nl.

(** [md_content]; [now] is the second reading of the clock. *)
Definition md_content (now : datetime) (question answer : str)
    (tool_outputs : list str) : str :=
  md_head now question answer
  ++ images_section (all_images tool_outputs)
  ++ outputs_section tool_outputs.

(** *** The file system *)

(** The directories, the files with their contents, and the paths the
    process may not create or write; then what a write depends on: the
    characters that the encoding of the locale has ([write_text] is
    called without [encoding]), and the room the device has for a file,
    counted in characters ([None]: room for any text). *)
Record fs : Type :=
  { dirs : gset str; files : gmap str str; denied : str → bool;
    encodes : N → bool; room : str → option nat }.

Definition with_dir (p : str) (w : fs) : fs :=
  {| dirs := {[p]} ∪ dirs w; files := files w; denied := denied w;
     encodes := encodes w; room := room w |}.

Definition with_file (p content : str) (w : fs) : fs :=
  {| dirs := dirs w; files := <[p := content]> (files w); denied := denied w;
     encodes := encodes w; room := room w |}.

(** [Path(p).mkdir(exist_ok=True)] *)
Definition mkdir_exist_ok (p : str) : M fs unit :=
  w ← get;
  if decide (p ∈ dirs w) then mret ()
  else if decide (is_Some (files w !! p)) then raise (FileExistsError p)
  else if denied w p then raise (PermissionError p)
  else modify (with_dir p).

(** The device has room for [content] under [p]. *)
Definition fits (w : fs) (p content : str) : bool :=
  match room w p with
  | None => true
  | Some k => bool_decide (length content ≤ k)%nat
  end.

(** [Path(p).write_text(content)], which is [with open(p, 'w') as f:
    f.write(content)], in its three steps. [open] raises on a path the
    process may not write, before anything has changed; otherwise the
    file is created or cut to length zero. [f.write] then encodes the
    whole text, and a character the encoding lacks raises
    [UnicodeEncodeError] with the file left empty. Last the text goes to
    the device, which takes all of it or, for want of room, only its
    beginning, and then raises. *)
Definition write_text (p content : str) : M fs unit :=
  w ← get;
  if denied w p then raise (PermissionError p)
  else
    _ ← modify (with_file p []);
    if negb (forallb (encodes w) content) then raise UnicodeEncodeError
    else if fits w p content then modify (with_file p content)
    else
      _ ← modify (with_file p (take (default 0%nat (room w p)) content));
      raise (OSError p).

Section Run.

Variable unicode_isalnum : N → bool.

(** [now1] and [now2] are the two readings of the clock. *)
Definition save_to_markdown (now1 now2 : datetime) (question answer : str)
    (tool_outputs : list str) : M fs str :=
  let output_dir := py "outputs" in
  _ ← mkdir_exist_ok output_dir;
  let filepath := output_dir ++ py "/" ++ filename unicode_isalnum now1 question in
  _ ← write_text filepath (md_content now2 question answer tool_outputs);
  mret filepath.

(** The outside parties of a run: the tool host answering [get_tools]
    (the names are all the run uses) and the agent, planner and tools
    together, answering [ainvoke] with the conversation or raising. *)
Record collaborators : Type :=
  { get_tools : exn + list str;
    agent_ainvoke : list str → str → exn + list message }.

Definition tool_outputs_of (messages : list message) : list str :=
  omap (λ msg, match msg with ToolMessage c => Some c | _ => None end) messages.

Definition answer_question (c : collaborators) (now1 now2 : datetime)
    (question : str) : M fs (str * str) :=
  tools ← await (get_tools c);
  response ← await (agent_ainvoke c tools question);
  let tool_outputs := tool_outputs_of response in
  final_answer ← match last response with
                 | Some msg => mret (content msg)
                 | None => raise IndexError
                 end;
  filepath ← save_to_markdown now1 now2 question final_answer tool_outputs;
  mret (final_answer, filepath).

(** [not os.getenv(...)]: the variable is unset or empty. *)
Definition absent_key (v : option str) : bool :=
  match v with
  | None | Some [] => true
  | Some (_ :: _) => false
  end.

(** What [main] lets its caller, the user at the terminal, see: the exit
    with the usage message, the answer with the location of the report,
    or the error message. The banner and progress lines that are printed
    in every run are left out. *)
Inductive outcome : Type :=
| Exited (code : nat)
| Answered (answer filepath : str)
| Failed (e : exn).

(** [openai_key] is [os.getenv("OPENAI_API_KEY")], [argv] is [sys.argv]. *)
Definition main (openai_key : option str) (argv : list str)
    (c : collaborators) (now1 now2 : datetime) (w : fs) : outcome * fs :=
  if absent_key openai_key then (Exited 1, w)
  else if decide (length argv < 2)%nat then (Exited 1, w)
  else
    let question := join (py " ") (drop 1 argv) in
    match answer_question c now1 now2 question w with
    | (inr (answer, filepath), w') => (Answered answer filepath, w')
    | (inl e, w') => (Failed e, w')
    end.

End Run.

(** *** Shapes of URLs *)

(** [u] has the shape [https?://[^\s]+]. *)
Definition url_shaped (u : str) : Prop :=
  ∃ s body, u = py "http" ++ s ++ py "://" ++ body
            ∧ (s = [] ∨ s = py "s")
            ∧ body ≠ [] ∧ Forall (λ c, is_space c = false) body.

(** [u] ends in one of the extensions of the image patterns. *)
Definition image_ext (ext : str) : Prop :=
  ext = py "jpg" ∨ ext = py "jpeg" ∨ ext = py "png" ∨ ext = py "gif".

(** What may follow a URL: the end of the text or a whitespace
    character. *)
Definition url_end (rest : str) : Prop :=
  rest = [] ∨ ∃ c r, rest = c :: r ∧ is_space c = true.

(** [u] has the shape [https?://[^\s]+\.(?:jpg|jpeg|png|gif)]. *)
Definition image_url_shaped (u : str) : Prop :=
  ∃ s body ext, u = py "http" ++ s ++ py "://" ++ body ++ py "." ++ ext
                ∧ (s = [] ∨ s = py "s")
                ∧ body ≠ [] ∧ Forall (λ c, is_space c = false) body
                ∧ image_ext ext.

(** *** Inputs of the examples *)

Definition apod_text : str :=
  [0x1F5BC; 0xFE0F] ++ py " Image URL: https://apod.nasa.gov/x.jpg".

Definition png_url : str := py "https://a.b/x.png".

(** The bare URL comes first in this text and second in the result; the
    labelled URL is emitted twice, by the first pattern and by the last. *)
Definition bare_then_labelled_image : str :=
  py "https://a.b/x.png " ++ [0x1F5BC; 0xFE0F] ++ py " Image URL: https://c.d/y.png".

Definition long_output : str := replicate 2001 0x61.

(** A table without alphanumerics above ASCII, for questions in ASCII. *)
Definition ascii_only : N → bool := λ _, false.

Definition a_moment : datetime :=
  {| year := 2025; month := 1; day := 2; hour := 3; minute := 4; second := 5 |}.

Definition a_second_later : datetime :=
  {| year := 2025; month := 1; day := 2; hour := 3; minute := 4; second := 6 |}.

(** A run that computes the answer [42] on a disk where nothing may be
    created. *)
Definition answering : collaborators :=
  {| get_tools := inr [py "roll_dice"];
     agent_ainvoke := λ _ question,
       inr [HumanMessage question; ToolMessage (py "6"); AIMessage (py "42")] |}.

(** UTF-8 has every character but the surrogates. *)
Definition utf8 (c : N) : bool := negb ((0xD800 <=? c) && (c <=? 0xDFFF)).

Definition read_only_disk : fs :=
  {| dirs := ∅; files := ∅; denied := λ _, true;
     encodes := utf8; room := λ _, None |}.

Definition failing_planner : collaborators :=
  {| get_tools := inr [py "roll_dice"];
     agent_ainvoke := λ _ _, inl (CollaboratorError (py "planner unreachable")) |}.

Definition empty_disk : fs :=
  {| dirs := ∅; files := ∅; denied := λ _, false;
     encodes := utf8; room := λ _, None |}.

(** Tool outputs without any URL. *)
Definition quiet_outputs : list str := [py "6"; py "no picture today"].

End McpClient.

(** ** [simple_langgraph_mcp.py]: the three nodes of the workflow *)

Module SimpleLanggraph.
Import Text Effects.

Record State : Type :=
  { messages : list message; nasa_data : str; news_data : str; final_report : str }.

(** The keys of [State] that hold the output of a step. *)
Inductive slot : Type := NasaData | NewsData | FinalReport.

(** The nodes, under the names of the functions. *)
Inductive step : Type := GetNasa | GetNews | CreateReport.

#[global] Instance slot_eq_dec : EqDecision slot.
Proof. solve_decision. Defined.
#[global] Instance step_eq_dec : EqDecision step.
Proof. solve_decision. Defined.

(** One execution of an assignment [state[slot] = value], recorded with
    the node that ran it; the list of them, oldest first, is kept beside
    the state. The dictionary literal [initial_state] builds the state and
    is not an assignment, and neither is [return state], which hands the
    same dictionary on to the next node. *)
Record write : Type := Write_ { by_step : step; to_slot : slot; value : str }.

Definition set_slot (k : slot) (v : str) (s : State) : State :=
  match k with
  | NasaData =>
      {| messages := messages s; nasa_data := v; news_data := news_data s;
         final_report := final_report s |}
  | NewsData =>
      {| messages := messages s; nasa_data := nasa_data s; news_data := v;
         final_report := final_report s |}
  | FinalReport =>
      {| messages := messages s; nasa_data := nasa_data s; news_data := news_data s;
         final_report := v |}
  end.

Definition get_slot (k : slot) (s : State) : str :=
  match k with
  | NasaData => nasa_data s
  | NewsData => news_data s
  | FinalReport => final_report s
  end.

Abbreviation run_state := (State * list write)%type.

(** [state[k] = v] inside the node [who]. *)
Definition assign (who : step) (k : slot) (v : str) : M run_state unit :=
  modify (λ r, (set_slot k v r.1, r.2 ++ [Write_ who k v])).

Abbreviation args := (list (str * str)).

Record tool : Type := { name : str; ainvoke : args → exn + str }.

Record tool_call : Type := { call_name : str; call_args : args }.

(** The reply of the language model: the requests for tools and the text. *)
Record ai_response : Type := { tool_calls : list tool_call; reply : str }.

(** The outside parties: the tool host asked by [create_mcp_agent] in
    each node, the model with the tools bound (the planner) and the plain
    model of [create_report]. *)
Record environment : Type :=
  { get_tools : step → exn + list tool;
    llm_with_tools : list message → exn + ai_response;
    llm : list message → exn + ai_response }.

(** [for tool in tools: if tool.name == tool_name: ...; break] finds the
    first tool of that name. *)
Fixpoint find_tool (tool_name : str) (tools : list tool) : option tool :=
  match tools with
  | [] => None
  | t :: tools' =>
      if decide (name t = tool_name) then Some t else find_tool tool_name tools'
  end.

(** The loop over [response.tool_calls], the same in both nodes but for
    the key assigned. A name that no tool has falls through the inner loop
    and nothing happens. *)
Fixpoint run_tool_calls (who : step) (k : slot) (tools : list tool)
    (calls : list tool_call) : M run_state unit :=
  match calls with
  | [] => mret ()
  | call :: calls' =>
      _ ← match find_tool (call_name call) tools with
          | Some t =>
              result ← await (ainvoke t (call_args call));
              assign who k result
          | None => mret ()
          end;
      run_tool_calls who k tools calls'
  end.

Definition nasa_request : message :=
  HumanMessage (py "Get today's astronomy picture of the day").

Definition news_request : message :=
  HumanMessage (py "Search for recent news about space and astronomy").

Definition with_messages (msgs : list message) (s : State) : State :=
  {| messages := msgs; nasa_data := nasa_data s; news_data := news_data s;
     final_report := final_report s |}.

(** [messages.append(...)] changes the list the state holds. *)
Definition get_nasa_data (env : environment) : M run_state unit :=
  tools ← await (get_tools env GetNasa);
  r ← get;
  let msgs := messages r.1 ++ [nasa_request] in
  _ ← modify (λ r : run_state, (with_messages msgs r.1, r.2));
  response ← await (llm_with_tools env msgs);
  run_tool_calls GetNasa NasaData tools (tool_calls response).

Definition get_news_data (env : environment) : M run_state unit :=
  tools ← await (get_tools env GetNews);
  let msgs := [news_request] in
  response ← await (llm_with_tools env msgs);
  run_tool_calls GetNews NewsData tools (tool_calls response).

Definition report_prompt (s : State) : str :=
  nl ++ py "    Based on the following data, create a brief space update report:" ++ nl
  ++ py "    " ++ nl
  ++ py "    NASA Data: " ++ nasa_data s ++ nl
  ++ py "    " ++ nl
  ++ py "    News Data: " ++ news_data s ++ nl
  ++ py "    " ++ nl
  ++ py "    Create a concise, engaging summary of today's space highlights." ++ nl
  ++ py "    ".

Definition create_report (env : environment) : M run_state unit :=
  r ← get;
  response ← await (llm env [HumanMessage (report_prompt r.1)]);
  assign CreateReport FinalReport (reply response).

(** The compiled graph: get_nasa, then get_news, then create_report. *)
Definition workflow (env : environment) : M run_state unit :=
  _ ← get_nasa_data env;
  _ ← get_news_data env;
  create_report env.

Definition initial_state : State :=
  {| messages := [HumanMessage (py "Get space updates")];
     nasa_data := []; news_data := []; final_report := [] |}.

(** [workflow.ainvoke(initial_state)] *)
Definition ainvoke_workflow (env : environment) : (exn + unit) * run_state :=
  workflow env (initial_state, []).

(** The values assigned to a key, oldest first. *)
Definition writes_to (k : slot) (log : list write) : list write :=
  filter (λ w, to_slot w = k) log.

(** The requests that name a tool of the catalogue. *)
Definition known (tools : list tool) (calls : list tool_call) : list tool_call :=
  filter (λ c, is_Some (find_tool (call_name c) tools)) calls.

(** What a node does to the state and to the record of assignments:
    [log'] is what it appends, all of it by [who] to [k]. *)
Definition node_spec (who : step) (k : slot) (node : M run_state unit)
    (st : State) (log : list write) (st' : State) (log' : list write) : Prop :=
  (node (st, log)).2 = (st', log ++ log')
  ∧ Forall (λ w, by_step w = who ∧ to_slot w = k) log'
  ∧ (∀ k', k' ≠ k → get_slot k' st' = get_slot k' st)
  ∧ get_slot k st' = default (get_slot k st) (value <$> last log').

(** *** Inputs of the examples *)

Definition apod_tool : tool :=
  {| name := py "get_astronomy_picture"; ainvoke := λ _, inr (py "picture") |}.

Definition news_tool : tool :=
  {| name := py "search_news"; ainvoke := λ _, inr (py "headline") |}.

Definition ask (tool_name : str) : tool_call :=
  {| call_name := tool_name; call_args := [] |}.

(** The planner asks for a tool that does not exist and for the picture
    tool; the model of [create_report] replies with the empty string. *)
Definition one_unknown_one_valid : ai_response :=
  {| tool_calls := [ask (py "no_such_tool"); ask (py "get_astronomy_picture")];
     reply := [] |}.

Definition unknown_and_valid : environment :=
  {| get_tools := λ _, inr [apod_tool; news_tool];
     llm_with_tools := λ _, inr one_unknown_one_valid;
     llm := λ _, inr {| tool_calls := []; reply := [] |} |}.

(** The planner asks for two tools that exist. *)
Definition two_valid : environment :=
  {| get_tools := λ _, inr [apod_tool; news_tool];
     llm_with_tools := λ _,
       inr {| tool_calls := [ask (py "get_astronomy_picture"); ask (py "search_news")];
              reply := [] |};
     llm := λ _, inr {| tool_calls := []; reply := py "report" |} |}.

(** The picture tool is down: it raises when called. *)
Definition failing_tool : tool :=
  {| name := py "get_astronomy_picture";
     ainvoke := λ _, inl (CollaboratorError (py "service down")) |}.

Definition picture_tool_down : environment :=
  {| get_tools := λ _, inr [failing_tool; news_tool];
     llm_with_tools := λ _, inr one_unknown_one_valid;
     llm := λ _, inr {| tool_calls := []; reply := py "report" |} |}.

End SimpleLanggraph.

(** ** [server.py]: the tools that need a credential *)

Module Server.
Import Text Effects.

(** [not v] for a value read with [os.getenv]: unset or empty. *)
Definition absent (v : option str) : bool :=
  match v with
  | None | Some [] => true
  | Some (_ :: _) => false
  end.

(** *** The module-level names *)

(** An entry of [search_results['results']]; a key may be missing. *)
Record search_result : Type :=
  { title : option str; snippet : option str; url : option str }.

(** The module-level [client], built from the search-provider key when
    the module is loaded: its two methods answer or raise. *)
Record TavilyClient : Type :=
  { search : str → exn + list search_result;
    get_search_context : str → exn + str }.

(** [client], [NEWS_API_KEY] and [NASA_API_KEY]. *)
Record module : Type :=
  { client : TavilyClient; NEWS_API_KEY : option str; NASA_API_KEY : str }.

(** The top of the module. [getenv] is [os.getenv]; [Tavily] is the
    constructor of the search client, which returns a client or raises. *)
Definition load (getenv : str → option str)
    (Tavily : option str → exn + TavilyClient) : exn + module :=
  match Tavily (getenv (py "TAVILY_API_KEY")) with
  | inl e => inl e
  | inr c =>
      inr {| client := c;
             NEWS_API_KEY := getenv (py "NEWS_API_KEY");
             NASA_API_KEY := default (py "DEMO_KEY") (getenv (py "NASA_API_KEY")) |}
  end.

(** *** [web_search] *)

Definition format_result (i : nat) (result : search_result) : str :=
  str_int i ++ py ". " ++ default (py "No title") (title result) ++ nl
  ++ py "   " ++ take 200 (default (py "No description") (snippet result))
  ++ py "..." ++ nl
  ++ py "   " ++ [0x1F517] ++ py " " ++ default (py "No URL") (url result).

(** [enumerate(l, 1)] *)
Fixpoint format_from (i : nat) (l : list search_result) : list str :=
  match l with
  | [] => []
  | x :: l' => format_result i x :: format_from (S i) l'
  end.

(** The [try] body runs the search and formats; the handler catches every
    exception and returns what [client.get_search_context] returns,
    itself outside any [try]. *)
Definition web_search (m : module) (query : str) : exn + str :=
  match search (client m) query with
  | inr results =>
      match format_from 1 results with
      | [] => inr (py "No results found for: " ++ query)
      | formatted_results =>
          inr (py "Search results for: " ++ query ++ nl ++ nl
               ++ join (nl ++ nl) formatted_results)
      end
  | inl _ => get_search_context (client m) query
  end.

(** *** The news tools *)

Record article : Type :=
  { a_title : str; description : option str; a_url : str; publishedAt : str }.

(** The decoded reply of the news provider. *)
Record news_reply : Type :=
  { status : str; totalResults : nat; articles : list article }.

Abbreviation params := (list (str * str)).

(** [requests.get(url, params=params)] with [raise_for_status()] and
    [json()]: the reply, or the exception raised. *)
Abbreviation http := (str → params → exn + news_reply).

Definition missing_news_key : str :=
  py "Error: NEWS_API_KEY not found in environment variables. Please add it to your .env file.".

Definition newspaper : str := [0x1F4F0].
Definition link : str := [0x1F517].
Definition calendar : str := [0x1F4C5].

(** [if v: params[k] = v] *)
Definition optional_param (k : str) (v : option str) : params :=
  match v with
  | Some (c :: v') => [(k, c :: v')]
  | _ => []
  end.

Definition get_top_headlines (m : module) (requests_get : http)
    (country : str) (category query : option str) : exn + str :=
  if absent (NEWS_API_KEY m) then inr missing_news_key
  else
    let url := py "https://newsapi.org/v2/top-headlines" in
    let params :=
      [(py "apiKey", default [] (NEWS_API_KEY m)); (py "country", country);
       (py "pageSize", py "5")]
      ++ optional_param (py "category") category
      ++ optional_param (py "q") query in
    match requests_get url params with
    | inr data =>
        if decide (status data = py "ok" ∧ 0 < totalResults data)%nat then
          inr (join (nl ++ nl)
                 ((λ a, newspaper ++ py " " ++ a_title a ++ nl
                        ++ py "   " ++ default (py "No description") (description a) ++ nl
                        ++ py "   " ++ link ++ py " " ++ a_url a)
                  <$> take 5 (articles data)))
        else inr (py "No news articles found for the specified criteria.")
    | inl (RequestException msg) => inr (py "Error fetching news: " ++ msg)
    | inl e => inl e
    end.

(** [week_ago] is [(datetime.now() - timedelta(days=7)).strftime("%Y-%m-%d")]. *)
Definition search_news (m : module) (requests_get : http)
    (week_ago : str) (query : str) (from_date : option str) (sort_by : str)
    : exn + str :=
  if absent (NEWS_API_KEY m) then inr missing_news_key
  else
    let url := py "https://newsapi.org/v2/everything" in
    let from_date := if absent from_date then week_ago else default [] from_date in
    let params :=
      [(py "apiKey", default [] (NEWS_API_KEY m)); (py "q", query);
       (py "from", from_date); (py "sortBy", sort_by); (py "pageSize", py "5");
       (py "language", py "en")] in
    match requests_get url params with
    | inr data =>
        if decide (status data = py "ok" ∧ 0 < totalResults data)%nat then
          inr (join (nl ++ nl)
                 ((λ a, newspaper ++ py " " ++ a_title a ++ nl
                        ++ py "   " ++ calendar ++ py " " ++ take 10 (publishedAt a) ++ nl
                        ++ py "   " ++ default (py "No description") (description a) ++ nl
                        ++ py "   " ++ link ++ py " " ++ a_url a)
                  <$> take 5 (articles data)))
        else inr (py "No news articles found for '" ++ query ++ py "'.")
    | inl (RequestException msg) => inr (py "Error searching news: " ++ msg)
    | inl e => inl e
    end.

(** *** The astronomy tools *)

(** The decoded reply of the picture-of-the-day service; [media_type] and
    [hdurl] are read with [get] and may be missing. *)
Record apod_reply : Type :=
  { apod_date : str; apod_title : str; explanation : str;
    media_type : option str; apod_url : str; hdurl : option str }.

Abbreviation apod_http := (str → params → exn + apod_reply).

Definition picture_marker : str := [0x1F5BC; 0xFE0F] ++ py " Image URL: ".
Definition telescope_marker : str := [0x1F52D] ++ py " HD Image: ".
Definition link_marker : str := [0x1F517] ++ py " Image: ".

(** The four lines every answer starts with; the last one without its
    line feed. *)
Definition apod_head (data : apod_reply) : str :=
  [0x1F30C] ++ py " NASA Astronomy Picture of the Day" ++ nl
  ++ [0x1F4C5] ++ py " Date: " ++ apod_date data ++ nl
  ++ [0x1F4F8] ++ py " Title: " ++ apod_title data ++ nl
  ++ [0x1F4DD] ++ py " Explanation: " ++ explanation data.

Definition apod_text (data : apod_reply) : str :=
  apod_head data ++ nl
  ++ (if decide (media_type data = Some (py "image")) then
        picture_marker ++ apod_url data ++ nl
        ++ match hdurl data with
           | Some (c :: h) => telescope_marker ++ c :: h
           | _ => []
           end
      else if decide (media_type data = Some (py "video")) then
        [0x1F3A5] ++ py " Video URL: " ++ apod_url data
      else []).

Definition apod_params (m : module) (date : option str) : params :=
  [(py "api_key", NASA_API_KEY m)] ++ optional_param (py "date") date.

Definition get_astronomy_picture (m : module) (requests_get : apod_http)
    (date : option str) : exn + str :=
  let url := py "https://api.nasa.gov/planetary/apod" in
  let params := apod_params m date in
  match requests_get url params with
  | inr data => inr (apod_text data)
  | inl (RequestException msg) =>
      inr (py "Error fetching astronomy picture: " ++ msg)
  | inl e => inl e
  end.

(** An entry of [data["photos"]]. *)
Record photo : Type :=
  { camera_full_name : str; earth_date : str; img_src : str }.

(** The reply of the rover service: [data.get("photos")], the empty list
    when the key is missing. *)
Abbreviation mars_http := (str → params → exn + list photo).

(** [str(n)] for an [int]. *)
Definition str_Z (z : Z) : str :=
  match z with
  | Zneg p => py "-" ++ str_int (Pos.to_nat p)
  | _ => str_int (Z.to_nat z)
  end.

Definition photo_text (p : photo) : str :=
  [0x1F4F7] ++ py " Camera: " ++ camera_full_name p ++ nl
  ++ [0x1F30D] ++ py " Earth Date: " ++ earth_date p ++ nl
  ++ link_marker ++ img_src p ++ nl ++ nl.

(** [if sol is None: sol = 1000 if rover == "curiosity" else 100] *)
Definition mars_sol (rover : str) (sol : option Z) : Z :=
  match sol with
  | None => if decide (rover = py "curiosity") then 1000%Z else 100%Z
  | Some sol => sol
  end.

Definition mars_url (rover : str) : str :=
  py "https://api.nasa.gov/mars-photos/api/v1/rovers/" ++ rover ++ py "/photos".

Definition mars_params (m : module) (sol : Z) (camera : option str) : params :=
  [(py "api_key", NASA_API_KEY m); (py "sol", str_Z sol)]
  ++ optional_param (py "camera") camera.

Section Mars.

(** [str.capitalize], whose case tables the program does not contain. *)
Variable capitalize : str → str.

Definition mars_head (rover : str) (sol : Z) (found : nat) : str :=
  [0x1F680] ++ py " Mars Rover: " ++ capitalize rover ++ nl
  ++ [0x1F4C5] ++ py " Sol (Martian Day): " ++ str_Z sol ++ nl
  ++ [0x1F4F8] ++ py " Found " ++ str_int found ++ py " photos" ++ nl ++ nl.

Definition get_mars_rover_photos (m : module) (requests_get : mars_http)
    (rover : str) (sol : option Z) (camera : option str) : exn + str :=
  let sol := mars_sol rover sol in
  let url := mars_url rover in
  let params := mars_params m sol camera in
  match requests_get url params with
  | inr [] =>
      inr (py "No photos found for " ++ rover ++ py " rover on sol " ++ str_Z sol
           ++ py ". Try a different sol or camera.")
  | inr photos =>
      inr (mars_head rover sol (length photos)
           ++ mjoin (photo_text <$> take 5 photos))
  | inl (RequestException msg) =>
      inr (py "Error fetching Mars rover photos: " ++ msg)
  | inl e => inl e
  end.

End Mars.

(** *** [context7_search] *)

(** The dictionary [contexts], each context with its entries in the
    order of the source. *)
Definition general_context : list (str * str) :=
  [(py "overview", py "Context7 is a knowledge management system for organizing and retrieving information.");
   (py "purpose", py "Designed to provide contextual information based on queries.");
   (py "capabilities", py "Can search across different types of contexts including general, technical, and documentation.")].

Definition technical_context : list (str * str) :=
  [(py "architecture", py "Built using modular components for extensibility.");
   (py "api", py "Provides RESTful API endpoints for integration.");
   (py "data", py "Supports various data formats including JSON, XML, and plain text.")].

Definition documentation_context : list (str * str) :=
  [(py "usage", py "Use the search function with appropriate context_type parameter.");
   (py "examples", py "Query with specific keywords for best results.");
   (py "troubleshooting", py "Check query syntax and context_type if no results are found.")].

(** [contexts.get(context_type, contexts["general"])] *)
Definition context_of (context_type : str) : list (str * str) :=
  if decide (context_type = py "general") then general_context
  else if decide (context_type = py "technical") then technical_context
  else if decide (context_type = py "documentation") then documentation_context
  else general_context.

Definition ascii_lower (c : N) : N :=
  if (0x41 <=? c) && (c <=? 0x5A) then c + 0x20 else c.

Definition is_ascii (s : str) : bool := forallb (λ c, c <? 0x80) s.

(** [s.split()]: the maximal runs of characters that are not
    whitespace; [word] is the run being read. *)
Fixpoint split_from (word s : str) : list str :=
  match s with
  | [] => match word with [] => [] | _ => [word] end
  | c :: s' =>
      if is_space c then
        match word with
        | [] => split_from [] s'
        | _ => word :: split_from [] s'
        end
      else split_from (word ++ [c]) s'
  end.

Definition split (s : str) : list str := split_from [] s.

Section Context7.

(** [s.lower()] on the texts that hold a code point above ASCII: the
    case tables of the Unicode database, which the program does not
    contain. On ASCII texts [lower] turns the letters A to Z into a to
    z. *)
Variable unicode_lower : str → str.

Definition lower (s : str) : str :=
  if is_ascii s then ascii_lower <$> s else unicode_lower s.

(** The condition of the loop over [context_data.items()]. *)
Definition relevant (query_lower : str) (entry : str * str) : bool :=
  contains entry.1 query_lower
  || existsb (λ word, contains word (lower entry.2)) (split query_lower).

Definition relevant_info (query_lower : str) (context_data : list (str * str))
    : list str :=
  omap (λ entry, if relevant query_lower entry
                 then Some (entry.1 ++ py ": " ++ entry.2) else None)
       context_data.

Definition context7_search (query context_type : str) : str :=
  let query_lower := lower query in
  let context_data := context_of context_type in
  match relevant_info query_lower context_data with
  | [] =>
      py "Context7: No specific information found for '" ++ query ++ py "' in "
      ++ context_type
      ++ py " context. Try refining your query or changing the context type."
  | info => py "Context7 found the following information:" ++ nl ++ join nl info
  end.

End Context7.

(** *** Inputs of the examples *)

(** A server started with no key at all: the search provider refuses
    every request of the client, and the network is never reached. *)
Definition keyless_client : TavilyClient :=
  {| search := λ _, inl (CollaboratorError (py "Unauthorized: missing or invalid API key."));
     get_search_context := λ _,
       inl (CollaboratorError (py "Unauthorized: missing or invalid API key.")) |}.

Definition keyless : module :=
  {| client := keyless_client; NEWS_API_KEY := None;
     NASA_API_KEY := py "DEMO_KEY" |}.

Definition offline : http :=
  λ _ _, inl (RequestException (py "no network")).

(** A stand-in for the case tables, which the examples do not consult in
    any way that matters. *)
Definition as_is : str → str := λ s, s.

Definition picture_of_the_day : apod_reply :=
  {| apod_date := py "2025-01-02"; apod_title := py "A Nebula";
     explanation := py "Gas and dust, see https://example.org/more for more.";
     media_type := Some (py "image");
     apod_url := py "https://apod.nasa.gov/apod/image/n.jpg";
     hdurl := Some (py "https://apod.nasa.gov/apod/image/n_big.jpg") |}.

Definition apod_service : apod_http := λ _ _, inr picture_of_the_day.

Definition rover_photo : photo :=
  {| camera_full_name := py "Mast Camera"; earth_date := py "2015-05-30";
     img_src := py "http://mars.jpl.nasa.gov/msl-raw-images/1000MR.jpg" |}.

Definition rover_service : mars_http := λ _ _, inr [rover_photo; rover_photo].

Definition one_result : search_result :=
  {| title := Some (py "Webb"); snippet := None; url := Some (py "https://webb.nasa.gov") |}.

Definition searching : module :=
  {| client := {| search := λ _, inr [one_result];
                  get_search_context := λ _, inr (py "context") |};
     NEWS_API_KEY := None; NASA_API_KEY := py "DEMO_KEY" |}.

End Server.

(** * Properties *)

Import Text Regex Effects McpClient.

(** ** Matches are pieces of the text *)

Section MatchesAreSubstrings.

Lemma infix_cons (c : N) (l s : str) : infix l s → infix l (c :: s).
Proof. intros (a & b & ->). by exists (c :: a), b. Qed.

Lemma plus_cls_split p (s m rest : str) :
  (m, rest) ∈ plus_cls p s → s = m ++ rest.
Proof.
  revert m rest. induction s as [|c s IH]; intros m rest; simpl.
  - by intros ?%elem_of_nil.
  - destruct (p c); [|by intros ?%elem_of_nil].
    rewrite elem_of_app, list_elem_of_fmap, list_elem_of_singleton.
    intros [([m' rest'] & [= -> ->] & Hin)|[= -> ->]]; [|done].
    simpl. f_equal. by apply IH.
Qed.

Lemma matches_split r (s m rest : str) :
  (m, rest) ∈ matches r s → s = m ++ rest.
Proof.
  revert s m rest. induction r as [|p|r1 IH1 r2 IH2|r1 IH1 r2 IH2|r IH|p];
    intros s m rest; simpl.
  - by intros [= -> ->]%list_elem_of_singleton.
  - destruct s as [|c s]; [by intros ?%elem_of_nil|].
    destruct (p c); [|by intros ?%elem_of_nil].
    by intros [= -> ->]%list_elem_of_singleton.
  - intros ([m1 s1] & ([m2 s2] & Hin & H2)%list_elem_of_bind & H1)%list_elem_of_bind.
    apply list_elem_of_singleton in Hin. simpl in *. injection Hin as -> ->.
    rewrite (IH1 _ _ _ H1), (IH2 _ _ _ H2). by rewrite (assoc_L (++)).
  - intros [?|?]%elem_of_app; eauto.
  - intros [?|[= -> ->]%list_elem_of_singleton]%elem_of_app; eauto.
  - apply plus_cls_split.
Qed.

Lemma match_at_split p (s whole g : str) :
  match_at p s = Some (whole, g) →
  ∃ a rest, whole = a ++ g ∧ s = whole ++ rest.
Proof.
  unfold match_at. intros Hh. apply head_Some_elem_of in Hh.
  apply list_elem_of_bind in Hh as ([m1 s1] & Hh & H1).
  apply list_elem_of_bind in Hh as ([m2 s2] & Hin & H2).
  apply list_elem_of_singleton in Hin. simpl in *. injection Hin as -> ->.
  exists m1, s2. split; [done|].
  rewrite (matches_split _ _ _ _ H1), (matches_split _ _ _ _ H2).
  by rewrite (assoc_L (++)).
Qed.

Lemma match_at_infix p (s whole g : str) :
  match_at p s = Some (whole, g) → infix g s.
Proof.
  intros (a & rest & -> & ->)%match_at_split. exists a, rest.
  by rewrite <-(assoc_L (++)).
Qed.

Lemma findall_from_infix p (s : str) : ∀ k g, g ∈ findall_from p k s → infix g s.
Proof.
  induction s as [|c s IH]; intros [|k] g; simpl;
    try (by intros ?%elem_of_nil).
  - destruct (match_at p []) as [[whole g']|] eqn:E; [|by intros ?%elem_of_nil].
    intros ->%list_elem_of_singleton. by eapply match_at_infix.
  - destruct (match_at p (c :: s)) as [[whole g']|] eqn:E.
    + intros [->|Hin]%elem_of_cons; [by eapply match_at_infix|].
      apply infix_cons. eauto.
    + intros Hin. apply infix_cons. eauto.
  - intros Hin. apply infix_cons. eauto.
Qed.

Lemma findall_infix p (s g : str) : g ∈ findall p s → infix g s.
Proof. apply findall_from_infix. Qed.

End MatchesAreSubstrings.

(** ** The loop that removes duplicates *)

Section Unique.

Lemma elem_of_unique_from (seen : gset str) (l : list str) (u : str) :
  u ∈ unique_from seen l ↔ u ∈ l ∧ u ∉ seen.
Proof.
  revert seen. induction l as [|x l IH]; intros seen; simpl.
  - split; [by intros ?%elem_of_nil | by intros [?%elem_of_nil _]].
  - case_decide as Hx.
    + rewrite IH, elem_of_cons. split; [naive_solver|].
      intros [[->|?] ?]; done.
    + rewrite !elem_of_cons, IH. split.
      * intros [->|[? ?]]; [by auto|]. split; [by auto|set_solver].
      * intros [[->|?] ?]; [by left|].
        destruct (decide (u = x)) as [->|]; [by left|right]. set_solver.
Qed.

Lemma NoDup_unique_from (seen : gset str) (l : list str) :
  NoDup (unique_from seen l).
Proof.
  revert seen. induction l as [|x l IH]; intros seen; simpl; [constructor|].
  case_decide; [done|]. constructor; [|done].
  rewrite elem_of_unique_from. set_solver.
Qed.

Lemma unique_from_app (seen : gset str) (l1 l2 : list str) :
  unique_from seen (l1 ++ l2)
  = unique_from seen l1 ++ unique_from (list_to_set l1 ∪ seen) l2.
Proof.
  revert seen. induction l1 as [|x l1 IH]; intros seen; simpl.
  - by rewrite (left_id_L ∅ (∪)).
  - case_decide as Hx.
    + rewrite IH. do 2 f_equal. set_solver.
    + simpl. rewrite IH. do 3 f_equal. set_solver.
Qed.

Lemma foldl_extend {A} (f : A → list str) (acc : list str) (l : list A) :
  foldl (λ acc x, acc ++ f x) acc l = acc ++ (l ≫= f).
Proof.
  revert acc. induction l as [|x l IH]; intros acc; csimpl.
  - by rewrite (right_id_L [] (++)).
  - by rewrite IH, (assoc_L (++)).
Qed.

Lemma raw_images_bind (text : str) :
  raw_images text = nasa_patterns ≫= (λ p, findall p text).
Proof. unfold raw_images. by rewrite foldl_extend. Qed.

Lemma all_images_bind (tool_outputs : list str) :
  all_images tool_outputs = tool_outputs ≫= extract_images_from_text.
Proof. unfold all_images. by rewrite foldl_extend. Qed.

Lemma elem_of_extract (text u : str) :
  u ∈ extract_images_from_text text ↔ u ∈ raw_images text.
Proof. unfold extract_images_from_text. rewrite elem_of_unique_from. set_solver. Qed.

Lemma count_NoDup (u : str) (l : list str) :
  NoDup l → length (filter (u =.) l) = if decide (u ∈ l) then 1%nat else 0%nat.
Proof.
  induction 1 as [|x l Hx Hl IH]; [done|].
  rewrite filter_cons. destruct (decide (u = x)) as [->|Hne].
  - simpl. rewrite decide_True by left. f_equal.
    rewrite IH. by rewrite decide_False.
  - rewrite IH. repeat case_decide; set_solver.
Qed.

End Unique.

(** ** Extraction *)

(** C6: every URL extracted from a list of tool outputs occurs verbatim, as
    a contiguous piece, in at least one of those outputs. *)
Theorem extracted_url_occurs_in_some_output (tool_outputs : list str) (u : str) :
  u ∈ all_images tool_outputs →
  ∃ output, output ∈ tool_outputs ∧ infix u output.
Proof.
  rewrite all_images_bind. intros (output & Hu & Hin)%list_elem_of_bind.
  exists output. split; [done|].
  apply elem_of_extract in Hu. rewrite raw_images_bind in Hu.
  apply list_elem_of_bind in Hu as (p & Hu & _). by eapply findall_infix.
Qed.

Lemma extracted_url_occurs_in_some_output_witness :
  py "https://apod.nasa.gov/x.jpg" ∈ all_images [py "no picture"; apod_text]
  ∧ ∃ output, output ∈ [py "no picture"; apod_text]
      ∧ infix (py "https://apod.nasa.gov/x.jpg") output.
Proof.
  assert (py "https://apod.nasa.gov/x.jpg" ∈ all_images [py "no picture"; apod_text])
    as H by (vm_compute; constructor).
  split; [exact H|].
  exact (extracted_url_occurs_in_some_output _ _ H).
Defined.

(** C1, as stated, fails: the same URL in two different outputs is
    extracted twice, once for each output. *)
Lemma same_url_in_two_outputs_extracted_twice :
  all_images [png_url; py "see " ++ png_url] = [png_url; png_url]
  ∧ ¬ NoDup (all_images [png_url; py "see " ++ png_url])
  ∧ length (filter (png_url =.) (all_images [png_url; py "see " ++ png_url])) ≠ 1%nat.
Proof.
  assert (all_images [png_url; py "see " ++ png_url] = [png_url; png_url]) as E
    by (by vm_compute).
  rewrite E. split; [done|]. split.
  - intros Hnd. apply NoDup_cons in Hnd as [Hnotin _].
    apply Hnotin. constructor.
  - by vm_compute.
Qed.

(** C1, amended: duplicates are removed within each output, not across
    outputs. In the extraction of one output no URL is repeated, and a URL
    stands where it is first found among the matches of that output, right
    after the distinct URLs found before it; over the whole list the URL
    is extracted once for every output whose extraction has it. *)
Theorem duplicates_removed_within_each_output
    (tool_outputs : list str) (output u : str) (before after : list str) :
  raw_images output = before ++ u :: after →
  u ∉ before →
  NoDup (extract_images_from_text output)
  ∧ (∃ tail, extract_images_from_text output = unique_from ∅ before ++ u :: tail)
  ∧ all_images tool_outputs = tool_outputs ≫= extract_images_from_text
  ∧ length (filter (u =.) (all_images tool_outputs))
    = length (filter (λ o, u ∈ extract_images_from_text o) tool_outputs).
Proof.
  intros Hraw Hfirst. split; [apply NoDup_unique_from|]. split.
  - unfold extract_images_from_text. rewrite Hraw, unique_from_app. simpl.
    rewrite decide_False by set_solver. eauto.
  - split; [apply all_images_bind|]. rewrite all_images_bind.
    clear. induction tool_outputs as [|o outs IH]; [done|]. csimpl.
    rewrite filter_app, length_app, IH, filter_cons.
    rewrite count_NoDup by apply NoDup_unique_from.
    by case_decide.
Qed.

Lemma duplicates_removed_within_each_output_witness :
  let both := png_url ++ py " " ++ png_url in
  raw_images both = [] ++ png_url :: [png_url]
  ∧ (png_url ∉ ([] : list str))
  ∧ NoDup (extract_images_from_text both)
  ∧ (∃ tail, extract_images_from_text both = unique_from ∅ [] ++ png_url :: tail)
  ∧ all_images [both; png_url] = [both; png_url] ≫= extract_images_from_text
  ∧ length (filter (png_url =.) (all_images [both; png_url]))
    = length (filter (λ o, png_url ∈ extract_images_from_text o) [both; png_url]).
Proof.
  intros both.
  assert (raw_images both = [] ++ png_url :: [png_url]) as H1 by (by vm_compute).
  assert (png_url ∉ ([] : list str)) as H2 by apply not_elem_of_nil.
  split; [exact H1|]. split; [exact H2|].
  exact (duplicates_removed_within_each_output [both; png_url] both png_url [] [png_url] H1 H2).
Defined.



(** ** The report *)

Section Report.

Lemma blocks_from_lookup (block : nat → str → str) (l : list str) :
  ∀ (k i : nat) (x : str), l !! i = Some x →
  ∃ pre post, blocks_from block k l = pre ++ block (k + i)%nat x ++ post.
Proof.
  induction l as [|y l IH]; intros k i x Hi; [by rewrite lookup_nil in Hi|].
  destruct i as [|i]; simpl in *.
  - injection Hi as ->. exists [], (blocks_from block (S k) l).
    by rewrite Nat.add_0_r.
  - destruct (IH (S k) i x Hi) as (pre & post & ->).
    exists (block k y ++ pre), post.
    rewrite <-!(assoc_L (++)). by rewrite Nat.add_succ_r.
Qed.

Lemma output_block_in_report
    (now : datetime) (question answer : str) (tool_outputs : list str)
    (i : nat) (output : str) :
  tool_outputs !! i = Some output →
  ∃ pre post,
    md_content now question answer tool_outputs
    = pre ++ output_block (S i) output ++ post.
Proof.
  intros Hi.
  destruct (blocks_from_lookup output_block tool_outputs 1 i output Hi)
    as (pre & post & E).
  unfold md_content, outputs_section. rewrite E.
  destruct tool_outputs as [|o outs]; [by rewrite lookup_nil in Hi|].
  exists (md_head now question answer
          ++ images_section (all_images (o :: outs)) ++ outputs_open ++ pre),
         (post ++ outputs_close).
  by rewrite <-!(assoc_L (++)).
Qed.

(** C7: a tool output of at most 2000 characters stands in the report as
    it is, between the fences of its entry; a longer one is cut to its
    first 2000 characters, followed by the marker, a line break and
    [... (truncated)]. *)
Theorem tool_output_kept_or_cut_at_2000
    (now : datetime) (question answer : str) (tool_outputs : list str)
    (i : nat) (output : str) :
  tool_outputs !! i = Some output →
  (∃ pre post,
      md_content now question answer tool_outputs
      = pre ++ output_block (S i) output ++ post)
  ∧ output_block (S i) output
    = py "### Tool Output " ++ str_int (S i) ++ nl ++ nl ++ py "```" ++ nl
      ++ output_body output ++ nl ++ py "```" ++ nl ++ nl
  ∧ output_body output
    = (if decide (length output ≤ 2000)%nat then output
       else take 2000 output ++ nl ++ py "... (truncated)")
  ∧ length (take 2000 output) = (2000 `min` length output)%nat.
Proof.
  intros Hi. split; [by apply output_block_in_report|].
  split; [reflexivity|]. split; [|apply length_take].
  unfold output_body.
  destruct (decide (2000 < length output)%nat) as [Hlong|Hshort].
  - rewrite decide_False by lia. reflexivity.
  - rewrite decide_True by lia. rewrite take_ge by lia.
    apply (right_id_L [] (++)).
Qed.

Lemma tool_output_kept_or_cut_at_2000_witness :
  let now := Build_datetime 2025 1 2 3 4 5 in
  let outs := [py "short"; long_output] in
  outs !! 1%nat = Some long_output
  ∧ output_body (py "short") = py "short"
  ∧ output_body long_output = replicate 2000 0x61 ++ nl ++ py "... (truncated)"
  ∧ ∃ pre post,
      md_content now (py "q") (py "a") outs
      = pre ++ output_block 2 long_output ++ post.
Proof.
  intros now outs.
  assert (outs !! 1%nat = Some long_output) as H by reflexivity.
  split; [exact H|]. split; [by vm_compute|]. split; [by vm_compute|].
  exact (proj1 (tool_output_kept_or_cut_at_2000 now (py "q") (py "a") outs 1
                  long_output H)).
Defined.

End Report.

(** ** The file name *)

Section Strip.

Lemma lstrip_suffix (s : str) : ∃ spaces, s = spaces ++ lstrip s.
Proof.
  induction s as [|c s [spaces IH]]; [by exists []|]. simpl.
  destruct (is_space c); [|by exists []].
  exists (c :: spaces). simpl. by f_equal.
Qed.

Lemma lstrip_head (s : str) (c : N) :
  head (lstrip s) = Some c → is_space c = false.
Proof.
  induction s as [|x s IH]; simpl; [done|].
  destruct (is_space x) eqn:E; [done|]. simpl. by intros [= <-].
Qed.

Lemma rstrip_prefix (s : str) : ∃ spaces, s = rstrip s ++ spaces.
Proof.
  unfold rstrip. destruct (lstrip_suffix (reverse s)) as [spaces E].
  exists (reverse spaces).
  rewrite <-reverse_app, <-E. by rewrite reverse_involutive.
Qed.

Lemma rstrip_last (s : str) (c : N) :
  last (rstrip s) = Some c → is_space c = false.
Proof. unfold rstrip. rewrite last_reverse. apply lstrip_head. Qed.

Lemma strip_split (s : str) : ∃ l r, s = l ++ strip s ++ r.
Proof.
  unfold strip. destruct (lstrip_suffix s) as [l El].
  destruct (rstrip_prefix (lstrip s)) as [r Er].
  exists l, r. by rewrite <-Er.
Qed.

Lemma lstrip_spaces (s : str) :
  ∃ spaces, s = spaces ++ lstrip s ∧ Forall (λ c, is_space c = true) spaces.
Proof.
  induction s as [|c s (spaces & IH & Hsp)]; [by exists []|]. simpl.
  destruct (is_space c) eqn:Ec; [|by exists []].
  exists (c :: spaces). split; [simpl; by f_equal|]. by constructor.
Qed.

Lemma rstrip_spaces (s : str) :
  ∃ spaces, s = rstrip s ++ spaces ∧ Forall (λ c, is_space c = true) spaces.
Proof.
  unfold rstrip. destruct (lstrip_spaces (reverse s)) as (spaces & E & Hsp).
  exists (reverse spaces). split; [|by apply Forall_reverse].
  rewrite <-reverse_app, <-E. by rewrite reverse_involutive.
Qed.

(** [strip] takes away a run of whitespace at each end, and all of it. *)
Lemma strip_spaces (s : str) :
  ∃ l r, s = l ++ strip s ++ r
         ∧ Forall (λ c, is_space c = true) l ∧ Forall (λ c, is_space c = true) r.
Proof.
  unfold strip. destruct (lstrip_spaces s) as (l & El & Hl).
  destruct (rstrip_spaces (lstrip s)) as (r & Er & Hr).
  exists l, r. by rewrite <-Er.
Qed.

Lemma strip_ends (s : str) (c : N) :
  head (strip s) = Some c ∨ last (strip s) = Some c → is_space c = false.
Proof.
  intros [Hh|Hl]; [|by eapply rstrip_last].
  unfold strip in Hh. destruct (rstrip_prefix (lstrip s)) as [r Er].
  apply (lstrip_head s). rewrite Er.
  destruct (rstrip (lstrip s)); [done|]. done.
Qed.

End Strip.

Section Slug.

Variable unicode_isalnum : N → bool.

Let slug := safe_question unicode_isalnum.

Lemma replace1_not_space (c : N) :
  is_space c = false → (if c =? 0x20 then 0x5F else c) = c.
Proof. intros Hc. destruct (N.eqb_spec c 0x20) as [->|]; [done|done]. Qed.

Lemma safe_question_sublist (question : str) :
  ∃ l, l `sublist_of` question ∧ slug question = replace1 0x20 0x5F l.
Proof.
  eexists. split; [|reflexivity].
  destruct (strip_split (take 50 (filter (λ c, kept unicode_isalnum c = true) question)))
    as (l & r & E).
  etrans; [|apply (sublist_filter (λ c, kept unicode_isalnum c = true))].
  etrans; [|apply (sublist_take _ 50)].
  rewrite E at 2. apply sublist_inserts_l, sublist_inserts_r. done.
Qed.

Lemma safe_question_length (question : str) : (length (slug question) ≤ 50)%nat.
Proof.
  unfold slug, safe_question, replace1. rewrite length_fmap.
  destruct (strip_split (take 50 (filter (λ c, kept unicode_isalnum c = true) question)))
    as (l & r & E).
  apply (f_equal length) in E. rewrite !length_app, length_take in E. lia.
Qed.

Lemma safe_question_chars (question : str) :
  Forall (λ c, kept unicode_isalnum c = true ∧ c ≠ 0x20) (slug question).
Proof.
  unfold slug, safe_question, replace1. apply Forall_fmap.
  destruct (strip_split (take 50 (filter (λ c, kept unicode_isalnum c = true) question)))
    as (l & r & E).
  assert (Forall (λ c, kept unicode_isalnum c = true)
            (take 50 (filter (λ c, kept unicode_isalnum c = true) question))) as HF.
  { apply Forall_take, Forall_forall. by intros c [? _]%list_elem_of_filter. }
  rewrite E in HF. apply Forall_app in HF as [_ [HF _]%Forall_app].
  eapply Forall_impl; [exact HF|]. intros c Hc. simpl.
  destruct (N.eqb_spec c 0x20) as [->|Hne]; [done|done].
Qed.

Lemma safe_question_ends (question : str) (c : N) :
  head (slug question) = Some c ∨ last (slug question) = Some c →
  is_space c = false.
Proof.
  unfold slug, safe_question, replace1.
  set (s := strip _). intros H.
  assert (∃ c', (head s = Some c' ∨ last s = Some c')
                ∧ c = (if c' =? 0x20 then 0x5F else c')) as (c' & Hc' & ->).
  { destruct H as [H|H].
    - destruct s as [|c' s']; [done|]. injection H as <-. exists c'. by split; [left|].
    - rewrite fmap_last in H.
      destruct (last s) as [c'|] eqn:E; [|done]. injection H as <-. eauto. }
  apply strip_ends in Hc'. by rewrite replace1_not_space.
Qed.

End Slug.

Section Clock.

Lemma str_lt_cons (x y : N) (a b : str) :
  str_lt (x :: a) (y :: b) = true ↔ x < y ∨ (x = y ∧ str_lt a b = true).
Proof. simpl. by rewrite orb_true_iff, andb_true_iff, N.ltb_lt, N.eqb_eq. Qed.

Lemma digit_small (n : nat) : (n < 10)%nat → digit n = 0x30 + N.of_nat n.
Proof. intros Hn. unfold digit. by rewrite Nat.mod_small. Qed.

Lemma two_digits_lt (a b : nat) (ra rb : str) :
  (a < 100)%nat → (b < 100)%nat →
  str_lt (two_digits a ++ ra) (two_digits b ++ rb) = true
  ↔ (a < b)%nat ∨ (a = b ∧ str_lt ra rb = true).
Proof.
  intros Ha Hb. unfold two_digits. cbn [app]. rewrite !str_lt_cons.
  pose proof (Nat.div_mod_eq a 10) as Ea. pose proof (Nat.div_mod_eq b 10) as Eb.
  pose proof (Nat.mod_upper_bound a 10) as Ua.
  pose proof (Nat.mod_upper_bound b 10) as Ub.
  assert (a / 10 < 10)%nat as Qa by (apply Nat.Div0.div_lt_upper_bound; lia).
  assert (b / 10 < 10)%nat as Qb by (apply Nat.Div0.div_lt_upper_bound; lia).
  rewrite (digit_small (a / 10)), (digit_small (b / 10)) by done.
  unfold digit.
  generalize dependent (a / 10)%nat. generalize dependent (b / 10)%nat.
  generalize dependent (a mod 10)%nat. generalize dependent (b mod 10)%nat.
  intros. destruct (str_lt ra rb); intuition (try discriminate; try lia).
Qed.

Lemma four_digits_lt (a b : nat) (ra rb : str) :
  (a < 100 * 100)%nat → (b < 100 * 100)%nat →
  str_lt (four_digits a ++ ra) (four_digits b ++ rb) = true
  ↔ (a < b)%nat ∨ (a = b ∧ str_lt ra rb = true).
Proof.
  intros Ha Hb. unfold four_digits. rewrite <-!(assoc_L (++)).
  pose proof (Nat.div_mod_eq a 100) as Ea. pose proof (Nat.div_mod_eq b 100) as Eb.
  pose proof (Nat.mod_upper_bound a 100) as Ua.
  pose proof (Nat.mod_upper_bound b 100) as Ub.
  assert (a / 100 < 100)%nat as Qa by (apply Nat.Div0.div_lt_upper_bound; lia).
  assert (b / 100 < 100)%nat as Qb by (apply Nat.Div0.div_lt_upper_bound; lia).
  rewrite !two_digits_lt by lia.
  generalize dependent (a / 100)%nat. generalize dependent (b / 100)%nat.
  generalize dependent (a mod 100)%nat. generalize dependent (b mod 100)%nat.
  intros. destruct (str_lt ra rb); intuition (try discriminate; try lia).
Qed.

Lemma strftime_compact_length (d : datetime) : length (strftime_compact d) = 15%nat.
Proof. reflexivity. Qed.

Lemma strftime_compact_sortable (a b : datetime) :
  in_range a → in_range b →
  str_lt (strftime_compact a) (strftime_compact b) = true ↔ earlier a b.
Proof.
  intros (_&?&?&?&?&?&?) (_&?&?&?&?&?&?). unfold strftime_compact, earlier.
  rewrite four_digits_lt by done. rewrite !two_digits_lt by done.
  change (py "_" ++ ?x) with (0x5F :: x). rewrite str_lt_cons.
  rewrite !two_digits_lt by done.
  rewrite <-(right_id_L [] (++) (two_digits (second a))).
  rewrite <-(right_id_L [] (++) (two_digits (second b))).
  rewrite two_digits_lt by done. simpl.
  intuition (try discriminate; try lia).
Qed.

End Clock.

Section FileName.

Variable unicode_isalnum : N → bool.

Lemma kept_in_slug (c : N) : kept unicode_isalnum c = true ↔ in_slug unicode_isalnum c.
Proof.
  unfold kept, is_word, is_ascii_alnum, in_slug.
  destruct (N.ltb_spec c 0x80) as [Hc|Hc].
  - rewrite !orb_true_iff, !andb_true_iff, !N.leb_le, !N.eqb_eq. intuition lia.
  - rewrite !orb_true_iff, !N.eqb_eq. intuition lia.
Qed.

(** C8, amended: the name of the report is the clock as
    [%Y%m%d_%H%M%S] (15 characters, ordered as the clock is), an
    underscore, the slug of the question and [.md]. The slug is made in
    four steps: of the question only the word characters (alphanumerics
    and the underscore), the whitespace and the hyphens are kept; of
    these the first 50 are taken; the whitespace at both ends is taken
    away, all of it; and each space that is left becomes an underscore,
    one for one, while other whitespace stays. So the slug is made of
    characters of the question in their order and case, has no
    whitespace at either end and at most 50 characters. For the question
    [What's up?] it is [Whats_up], and on 2 January 2025 at 03:04:05 the
    name is [20250102_030405_Whats_up.md]. *)
Theorem file_name_of_clock_and_question
    (now later : datetime) (question : str) :
  in_range now → in_range later →
  filename unicode_isalnum now question
  = strftime_compact now ++ py "_" ++ safe_question unicode_isalnum question ++ py ".md"
  ∧ length (strftime_compact now) = 15%nat
  ∧ (str_lt (strftime_compact now) (strftime_compact later) = true ↔ earlier now later)
  ∧ (∃ l, l `sublist_of` question
          ∧ safe_question unicode_isalnum question = replace1 0x20 0x5F l)
  ∧ Forall (λ c, kept unicode_isalnum c = true ∧ c ≠ 0x20)
      (safe_question unicode_isalnum question)
  ∧ (∀ c, head (safe_question unicode_isalnum question) = Some c
          ∨ last (safe_question unicode_isalnum question) = Some c →
          is_space c = false)
  ∧ (length (safe_question unicode_isalnum question) ≤ 50)%nat
  ∧ filename unicode_isalnum now (py "What's up?")
    = strftime_compact now ++ py "_Whats_up.md"
  ∧ (∀ c, kept unicode_isalnum c = true ↔ in_slug unicode_isalnum c)
  ∧ (∃ lead core trail,
       take 50 (filter (in_slug unicode_isalnum) question) = lead ++ core ++ trail
       ∧ Forall (λ c, is_space c = true) lead
       ∧ Forall (λ c, is_space c = true) trail
       ∧ (∀ c, head core = Some c ∨ last core = Some c → is_space c = false)
       ∧ safe_question unicode_isalnum question
         = (λ c, if decide (c = 0x20) then 0x5F else c) <$> core)
  ∧ filename unicode_isalnum
      {| year := 2025; month := 1; day := 2; hour := 3; minute := 4; second := 5 |}
      (py "What's up?")
    = py "20250102_030405_Whats_up.md".
Proof.
  intros Hnow Hlater. split; [reflexivity|]. split; [reflexivity|].
  split; [by apply strftime_compact_sortable|].
  split; [apply safe_question_sublist|].
  split; [apply safe_question_chars|].
  split; [apply safe_question_ends|].
  split; [apply safe_question_length|].
  split; [reflexivity|].
  split; [apply kept_in_slug|].
  split; [|reflexivity].
  set (cut := take 50 (filter (λ c, kept unicode_isalnum c = true) question)).
  assert (take 50 (filter (in_slug unicode_isalnum) question) = cut) as ->.
  { unfold cut. f_equal. apply list_filter_iff. intros c. symmetry. apply kept_in_slug. }
  destruct (strip_spaces cut) as (lead & trail & E & Hlead & Htrail).
  exists lead, (strip cut), trail.
  split; [done|]. split; [done|]. split; [done|]. split; [apply strip_ends|].
  unfold safe_question, replace1. fold cut. apply list_fmap_ext.
  intros i c _. destruct (N.eqb_spec c 0x20); by case_decide.
Qed.

End FileName.

Lemma in_range_a_moment : in_range a_moment.
Proof. unfold in_range, a_moment. simpl. lia. Qed.

Lemma in_range_a_second_later : in_range a_second_later.
Proof. unfold in_range, a_second_later. simpl. lia. Qed.

Lemma file_name_of_clock_and_question_witness :
  in_range a_moment ∧ in_range a_second_later
  ∧ filename ascii_only a_moment (py "What's up?") = py "20250102_030405_Whats_up.md"
  ∧ (str_lt (strftime_compact a_moment) (strftime_compact a_second_later) = true
     ↔ earlier a_moment a_second_later)
  ∧ (length (safe_question ascii_only (py "What's up?")) ≤ 50)%nat
  ∧ (∃ lead core trail,
       take 50 (filter (in_slug ascii_only) (py "What's up?")) = lead ++ core ++ trail
       ∧ Forall (λ c, is_space c = true) lead
       ∧ Forall (λ c, is_space c = true) trail
       ∧ (∀ c, head core = Some c ∨ last core = Some c → is_space c = false)
       ∧ safe_question ascii_only (py "What's up?")
         = (λ c, if decide (c = 0x20) then 0x5F else c) <$> core).
Proof.
  pose proof (file_name_of_clock_and_question ascii_only a_moment a_second_later
                (py "What's up?") in_range_a_moment in_range_a_second_later)
    as (_ & _ & Hsort & _ & _ & _ & Hlen & _ & _ & Hslug & Hname).
  split; [exact in_range_a_moment|]. split; [exact in_range_a_second_later|].
  split; [exact Hname|]. split; [exact Hsort|]. split; [exact Hlen|exact Hslug].
Defined.

(** C8, as stated, fails: a tab in the question is whitespace that is
    not turned into an underscore, and an underscore in the question is
    kept although it is neither alphanumeric, whitespace nor a hyphen. *)
Lemma tab_and_underscore_stay_in_file_name :
  let question := py "a" ++ [0x09] ++ py "b_c" in
  filename ascii_only a_moment question
  = py "20250102_030405_a" ++ [0x09] ++ py "b_c.md"
  ∧ slug_as_specified ascii_only question = py "a_bc"
  ∧ filename ascii_only a_moment question
    ≠ strftime_compact a_moment ++ py "_"
      ++ slug_as_specified ascii_only question ++ py ".md"
  ∧ ¬ Forall (λ c, is_space c = false) (safe_question ascii_only question).
Proof.
  intros question. split; [reflexivity|]. split; [reflexivity|]. split.
  - by vm_compute.
  - intros H. apply Forall_cons in H as [_ H].
    apply Forall_cons in H as [H _]. by vm_compute in H.
Qed.

(** ** The run of [mcp_client.py] *)

Section RunProperties.

Variable unicode_isalnum : N → bool.

Lemma answer_question_success_path
    (c : collaborators) (now1 now2 : datetime) (question : str) (w : fs)
    (tools : list str) (response : list message) (final : message) :
  get_tools c = inr tools →
  agent_ainvoke c tools question = inr response →
  last response = Some final →
  answer_question unicode_isalnum c now1 now2 question w
  = match save_to_markdown unicode_isalnum now1 now2 question (content final)
            (tool_outputs_of response) w with
    | (inl e, w') => (inl e, w')
    | (inr filepath, w') => (inr (content final, filepath), w')
    end.
Proof.
  intros Ht Ha Hl. unfold answer_question, mbind, M_bind, bind.
  rewrite Ht. simpl. rewrite Ha. simpl. rewrite Hl. simpl.
  by destruct (save_to_markdown _ _ _ _ _ _ w) as [[e|p] w'].
Qed.

Lemma main_runs_answer_question
    (key : option str) (argv : list str) (c : collaborators)
    (now1 now2 : datetime) (w : fs) :
  absent_key key = false → (2 ≤ length argv)%nat →
  main unicode_isalnum key argv c now1 now2 w
  = match answer_question unicode_isalnum c now1 now2
            (join (py " ") (drop 1 argv)) w with
    | (inr (answer, filepath), w') => (Answered answer filepath, w')
    | (inl e, w') => (Failed e, w')
    end.
Proof.
  intros Hk Hargv. unfold main. rewrite Hk.
  by rewrite decide_False by lia.
Qed.

(** [write_text] in its four outcomes. *)
Lemma write_text_unfold (p text : str) (w : fs) :
  write_text p text w
  = if denied w p then (inl (PermissionError p), w)
    else if negb (forallb (encodes w) text)
         then (inl UnicodeEncodeError, with_file p [] w)
    else if fits w p text
         then (inr (), with_file p text (with_file p [] w))
    else (inl (OSError p),
          with_file p (take (default 0%nat (room w p)) text) (with_file p [] w)).
Proof.
  unfold write_text, mbind, M_bind, bind, get, modify, raise. cbn beta iota.
  destruct (denied w p); [done|].
  destruct (forallb (encodes w) text); cbn [negb]; [|done].
  by destruct (fits w p text).
Qed.

Lemma save_to_markdown_unfold
    (now1 now2 : datetime) (question answer : str) (outs : list str) (w : fs) :
  save_to_markdown unicode_isalnum now1 now2 question answer outs w
  = match mkdir_exist_ok (py "outputs") w with
    | (inl e, w0) => (inl e, w0)
    | (inr _, w0) =>
        match write_text (py "outputs" ++ py "/" ++ filename unicode_isalnum now1 question)
                (md_content now2 question answer outs) w0 with
        | (inl e, w1) => (inl e, w1)
        | (inr _, w1) =>
            (inr (py "outputs" ++ py "/" ++ filename unicode_isalnum now1 question), w1)
        end
    end.
Proof.
  unfold save_to_markdown, mbind, M_bind, bind.
  destruct (mkdir_exist_ok (py "outputs") w) as [[e|[]] w0]; [done|].
  by destruct (write_text _ _ w0) as [[e|[]] w1].
Qed.

(** C2: when the planner raises on every call, [answer_question] raises
    to its caller before anything is written: the file system is left as
    it was, with no report file and no directory created; [main] then
    shows the error and no answer. The exception that reaches the caller
    is the planner's own, once the tool host has answered. *)
Theorem planner_failure_aborts_run_without_report
    (c : collaborators) (now1 now2 : datetime) (question : str) (w : fs) :
  (∀ tools q, ∃ e, agent_ainvoke c tools q = inl e) →
  (∃ e, answer_question unicode_isalnum c now1 now2 question w = (inl e, w))
  ∧ (∀ key argv, ∃ o,
       main unicode_isalnum key argv c now1 now2 w = (o, w)
       ∧ (∀ answer filepath, o ≠ Answered answer filepath)
       ∧ (absent_key key = false → (2 ≤ length argv)%nat → ∃ e, o = Failed e))
  ∧ files (answer_question unicode_isalnum c now1 now2 question w).2 = files w
  ∧ dirs (answer_question unicode_isalnum c now1 now2 question w).2 = dirs w
  ∧ (∀ tools e,
       get_tools c = inr tools → agent_ainvoke c tools question = inl e →
       answer_question unicode_isalnum c now1 now2 question w = (inl e, w)).
Proof.
  intros Hplanner.
  assert (∀ q, ∃ e, answer_question unicode_isalnum c now1 now2 q w = (inl e, w))
    as Hrun.
  { intros q. unfold answer_question, mbind, M_bind, bind.
    destruct (get_tools c) as [e|tools]; [by exists e|].
    destruct (Hplanner tools q) as [e He]. exists e.
    cbn [await ret]. by rewrite He. }
  split; [apply Hrun|]. split.
  - intros key argv. unfold main.
    destruct (absent_key key); [by exists (Exited 1)|].
    case_decide; [exists (Exited 1); repeat split; [done|lia]|].
    destruct (Hrun (join (py " ") (drop 1 argv))) as [e ->].
    exists (Failed e). repeat split; [done|by exists e].
  - split; [|split].
    + by destruct (Hrun question) as [e ->].
    + by destruct (Hrun question) as [e ->].
    + intros tools e Ht He. unfold answer_question, mbind, M_bind, bind.
      rewrite Ht. cbn [await ret]. by rewrite He.
Qed.

(** C5, amended: when writing the report fails, [answer_question] raises
    the error of the write to its caller, which is thereby told, and
    [main] shows that error; the answer computed before is not returned.
    The run ends where the failed write left the file system. *)
Theorem persistence_failure_raised_to_caller
    (c : collaborators) (now1 now2 : datetime) (question : str) (w : fs)
    (tools : list str) (response : list message) (final : message) (e : exn) :
  get_tools c = inr tools →
  agent_ainvoke c tools question = inr response →
  last response = Some final →
  (save_to_markdown unicode_isalnum now1 now2 question (content final)
     (tool_outputs_of response) w).1 = inl e →
  answer_question unicode_isalnum c now1 now2 question w
  = (inl e, (save_to_markdown unicode_isalnum now1 now2 question (content final)
               (tool_outputs_of response) w).2)
  ∧ (∀ answer filepath w',
       answer_question unicode_isalnum c now1 now2 question w
       ≠ (inr (answer, filepath), w'))
  ∧ (∀ key argv,
       absent_key key = false → (2 ≤ length argv)%nat →
       join (py " ") (drop 1 argv) = question →
       main unicode_isalnum key argv c now1 now2 w
       = (Failed e, (save_to_markdown unicode_isalnum now1 now2 question (content final)
                       (tool_outputs_of response) w).2)).
Proof.
  intros Ht Ha Hl Hsave.
  pose proof (answer_question_success_path c now1 now2 question w _ _ _ Ht Ha Hl)
    as Hrun.
  destruct (save_to_markdown _ _ _ _ _ _ w) as [[e'|p] w'] eqn:E;
    cbn [fst snd] in *; [|done].
  injection Hsave as ->. rewrite Hrun. split; [done|]. split; [done|].
  intros key argv Hk Hargv Hq.
  rewrite main_runs_answer_question by done. by rewrite Hq, Hrun.
Qed.

End RunProperties.

Lemma planner_failure_aborts_run_without_report_witness :
  (∀ tools q, ∃ e, agent_ainvoke failing_planner tools q = inl e)
  ∧ (∃ e, answer_question ascii_only failing_planner a_moment a_moment
            (py "Roll a die") empty_disk = (inl e, empty_disk))
  ∧ files (answer_question ascii_only failing_planner a_moment a_moment
             (py "Roll a die") empty_disk).2 = files empty_disk.
Proof.
  assert (∀ tools q, ∃ e, agent_ainvoke failing_planner tools q = inl e) as H
    by (intros; eexists; reflexivity).
  destruct (planner_failure_aborts_run_without_report ascii_only
              failing_planner a_moment a_moment (py "Roll a die") empty_disk H)
    as (H1 & _ & H3 & _ & _).
  split; [exact H|]. split; [exact H1|exact H3].
Defined.

(** C5, as stated, fails: the answer [42] is computed, the report cannot
    be written, and [answer_question] raises instead of returning the
    answer; what [main] shows is the error alone. *)
Lemma answer_lost_when_report_cannot_be_written :
  answer_question ascii_only answering a_moment a_moment (py "Roll a die")
    read_only_disk
  = (inl (PermissionError (py "outputs")), read_only_disk)
  ∧ main ascii_only (Some (py "sk-key")) [py "mcp_client.py"; py "Roll a die"]
      answering a_moment a_moment read_only_disk
    = (Failed (PermissionError (py "outputs")), read_only_disk)
  ∧ ¬ ∃ filepath w,
        answer_question ascii_only answering a_moment a_moment (py "Roll a die")
          read_only_disk
        = (inr (py "42", filepath), w).
Proof.
  assert (answer_question ascii_only answering a_moment a_moment (py "Roll a die")
            read_only_disk
          = (inl (PermissionError (py "outputs")), read_only_disk)) as E
    by (by vm_compute).
  split; [exact E|]. split; [by vm_compute|].
  intros (filepath & w & E'). rewrite E in E'. discriminate.
Qed.

Lemma persistence_failure_raised_to_caller_witness :
  let run := answer_question ascii_only answering a_moment a_moment
               (py "Roll a die") read_only_disk in
  get_tools answering = inr [py "roll_dice"]
  ∧ (save_to_markdown ascii_only a_moment a_moment (py "Roll a die") (py "42")
       [py "6"] read_only_disk).1 = inl (PermissionError (py "outputs"))
  ∧ run.1 = inl (PermissionError (py "outputs"))
  ∧ (∀ filepath w', run ≠ (inr (py "42", filepath), w')).
Proof.
  intros run.
  assert ((save_to_markdown ascii_only a_moment a_moment (py "Roll a die") (py "42")
             [py "6"] read_only_disk).1 = inl (PermissionError (py "outputs")))
    as Hsave by reflexivity.
  pose proof (persistence_failure_raised_to_caller ascii_only answering a_moment
                a_moment (py "Roll a die") read_only_disk [py "roll_dice"]
                [HumanMessage (py "Roll a die"); ToolMessage (py "6");
                 AIMessage (py "42")]
                (AIMessage (py "42")) (PermissionError (py "outputs"))
                eq_refl eq_refl eq_refl Hsave) as (H1 & H2 & _).
  split; [reflexivity|]. split; [exact Hsave|]. split.
  - exact (f_equal fst H1).
  - intros filepath w'. exact (H2 (py "42") filepath w').
Defined.

(** ** The workflow of [simple_langgraph_mcp.py] *)

Import SimpleLanggraph.

Section ToolCalls.

Variables (who : step) (k : slot) (tools : list tool).

Lemma run_tool_calls_cons (call : tool_call) (calls : list tool_call) (r : run_state) :
  run_tool_calls who k tools (call :: calls) r
  = match find_tool (call_name call) tools with
    | None => run_tool_calls who k tools calls r
    | Some t =>
        match ainvoke t (call_args call) with
        | inl e => (inl e, r)
        | inr out =>
            run_tool_calls who k tools calls
              (set_slot k out r.1, r.2 ++ [Write_ who k out])
        end
    end.
Proof.
  cbn [run_tool_calls]. unfold mbind, M_bind, bind.
  destruct (find_tool (call_name call) tools) as [t|]; [|done].
  by destruct (ainvoke t (call_args call)).
Qed.

Lemma get_set_slot_ne (k' : slot) (v : str) (s : State) :
  k' ≠ k → get_slot k' (set_slot k v s) = get_slot k' s.
Proof. by destruct k, k'. Qed.

Lemma get_set_slot (v : str) (s : State) : get_slot k (set_slot k v s) = v.
Proof. by destruct k. Qed.

Lemma messages_set_slot (v : str) (s : State) : messages (set_slot k v s) = messages s.
Proof. by destruct k. Qed.

(** What the loop does to the state and to the record of assignments. *)
Lemma run_tool_calls_spec (calls : list tool_call) :
  ∀ (st : State) (log : list write), ∃ st' log',
    (run_tool_calls who k tools calls (st, log)).2 = (st', log ++ log')
    ∧ Forall (λ w, by_step w = who ∧ to_slot w = k) log'
    ∧ messages st' = messages st
    ∧ (∀ k', k' ≠ k → get_slot k' st' = get_slot k' st)
    ∧ get_slot k st' = default (get_slot k st) (value <$> last log')
    ∧ ((run_tool_calls who k tools calls (st, log)).1 = inr () →
       length log' = length (known tools calls)).
Proof.
  induction calls as [|call calls IH]; intros st log.
  - exists st, []. by rewrite (right_id_L [] (++)).
  - rewrite run_tool_calls_cons. unfold known. rewrite filter_cons.
    destruct (find_tool (call_name call) tools) as [t|] eqn:Ef.
    + rewrite decide_True by (by eexists).
      destruct (ainvoke t (call_args call)) as [e|out].
      * exists st, []. by rewrite (right_id_L [] (++)).
      * cbn [fst snd].
        destruct (IH (set_slot k out st) (log ++ [Write_ who k out]))
          as (st' & log' & E & Hall & Hm & Hk' & Hk & Hn).
        exists st', (Write_ who k out :: log').
        rewrite E, <-(assoc_L (++)). split; [done|].
        split; [by constructor|]. split; [by rewrite Hm, messages_set_slot|].
        split; [by intros k' ?; rewrite Hk', get_set_slot_ne|].
        split.
        -- rewrite Hk, get_set_slot, last_cons. by destruct (last log').
        -- intros Hok. cbn [length]. by rewrite Hn.
    + rewrite decide_False by apply is_Some_None. apply IH.
Qed.

End ToolCalls.

Section Nodes.

Variable env : environment.

Lemma get_nasa_data_unfold (r : run_state) :
  get_nasa_data env r
  = match get_tools env GetNasa with
    | inl e => (inl e, r)
    | inr tools =>
        let msgs := messages r.1 ++ [nasa_request] in
        match llm_with_tools env msgs with
        | inl e => (inl e, (with_messages msgs r.1, r.2))
        | inr resp =>
            run_tool_calls GetNasa NasaData tools (tool_calls resp)
              (with_messages msgs r.1, r.2)
        end
    end.
Proof.
  unfold get_nasa_data, mbind, M_bind, bind.
  destruct (get_tools env GetNasa) as [e|tools]; [done|]. cbn.
  by destruct (llm_with_tools env _).
Qed.

Lemma get_news_data_unfold (r : run_state) :
  get_news_data env r
  = match get_tools env GetNews with
    | inl e => (inl e, r)
    | inr tools =>
        match llm_with_tools env [news_request] with
        | inl e => (inl e, r)
        | inr resp => run_tool_calls GetNews NewsData tools (tool_calls resp) r
        end
    end.
Proof.
  unfold get_news_data, mbind, M_bind, bind.
  destruct (get_tools env GetNews) as [e|tools]; [done|]. cbn.
  by destruct (llm_with_tools env _).
Qed.

Lemma create_report_unfold (r : run_state) :
  create_report env r
  = match llm env [HumanMessage (report_prompt r.1)] with
    | inl e => (inl e, r)
    | inr resp =>
        (inr (), (set_slot FinalReport (reply resp) r.1,
                  r.2 ++ [Write_ CreateReport FinalReport (reply resp)]))
    end.
Proof.
  unfold create_report, mbind, M_bind, bind. cbn.
  by destruct (llm env _).
Qed.

Lemma workflow_unfold (r : run_state) :
  workflow env r
  = match get_nasa_data env r with
    | (inl e, r1) => (inl e, r1)
    | (inr _, r1) =>
        match get_news_data env r1 with
        | (inl e, r2) => (inl e, r2)
        | (inr _, r2) => create_report env r2
        end
    end.
Proof.
  unfold workflow, mbind, M_bind, bind.
  destruct (get_nasa_data env r) as [[e|[]] r1]; [done|].
  by destruct (get_news_data env r1) as [[e|[]] r2].
Qed.

Lemma get_nasa_data_spec (st : State) (log : list write) :
  ∃ st' log',
    node_spec GetNasa NasaData (get_nasa_data env) st log st' log'
    ∧ ∀ tools resp,
        get_tools env GetNasa = inr tools →
        llm_with_tools env (messages st ++ [nasa_request]) = inr resp →
        (get_nasa_data env (st, log)).1 = inr () →
        length log' = length (known tools (tool_calls resp)).
Proof.
  unfold node_spec. rewrite get_nasa_data_unfold. cbn [fst snd].
  destruct (get_tools env GetNasa) as [e|tools].
  { exists st, []. rewrite (right_id_L [] (++)). by repeat split. }
  cbn zeta. destruct (llm_with_tools env _) as [e|resp].
  { exists (with_messages (messages st ++ [nasa_request]) st), [].
    rewrite (right_id_L [] (++)). by repeat split. }
  destruct (run_tool_calls_spec GetNasa NasaData tools (tool_calls resp)
              (with_messages (messages st ++ [nasa_request]) st) log)
    as (st' & log' & E & Hall & _ & Hk' & Hk & Hn).
  exists st', log'. split; [split; [exact E|split; [exact Hall|split]]|].
  - intros k' Hne. rewrite Hk' by done. by destruct k'.
  - by rewrite Hk.
  - intros tools' resp' [= <-] [= <-]. exact Hn.
Qed.

Lemma get_news_data_spec (st : State) (log : list write) :
  ∃ st' log',
    node_spec GetNews NewsData (get_news_data env) st log st' log'
    ∧ ∀ tools resp,
        get_tools env GetNews = inr tools →
        llm_with_tools env [news_request] = inr resp →
        (get_news_data env (st, log)).1 = inr () →
        length log' = length (known tools (tool_calls resp)).
Proof.
  unfold node_spec. rewrite get_news_data_unfold.
  destruct (get_tools env GetNews) as [e|tools].
  { exists st, []. rewrite (right_id_L [] (++)). by repeat split. }
  destruct (llm_with_tools env _) as [e|resp].
  { exists st, []. rewrite (right_id_L [] (++)). by repeat split. }
  destruct (run_tool_calls_spec GetNews NewsData tools (tool_calls resp) st log)
    as (st' & log' & E & Hall & _ & Hk' & Hk & Hn).
  exists st', log'. split; [done|].
  intros tools' resp' [= <-] [= <-]. exact Hn.
Qed.

Lemma create_report_spec (st : State) (log : list write) :
  ∃ st' log',
    node_spec CreateReport FinalReport (create_report env) st log st' log'
    ∧ (length log' ≤ 1)%nat.
Proof.
  unfold node_spec. rewrite create_report_unfold. cbn [fst snd].
  destruct (llm env _) as [e|resp].
  { exists st, []. rewrite (right_id_L [] (++)). repeat split; try done. cbn. lia. }
  exists (set_slot FinalReport (reply resp) st),
         [Write_ CreateReport FinalReport (reply resp)].
  split; [|done]. split; [done|]. split; [by repeat constructor|].
  split; [by intros []|done].
Qed.

End Nodes.

(** C4, amended: a key of the state is assigned by its own node only and
    not after that node has ended: the assignments of a run are those of
    [get_nasa_data] to [nasa_data], then those of [get_news_data] to
    [news_data], then at most one of [create_report] to [final_report],
    and at the end each key holds the last value assigned to it (the empty
    string of the initial state when there was none). The node assigns its
    key once for every requested tool that the catalogue has, so as many
    times as the planner asks, not at most once. *)
Theorem slot_assigned_only_by_its_node (env : environment) :
  ∃ res st l1 l2 l3,
    ainvoke_workflow env = (res, (st, l1 ++ l2 ++ l3))
    ∧ Forall (λ w, by_step w = GetNasa ∧ to_slot w = NasaData) l1
    ∧ Forall (λ w, by_step w = GetNews ∧ to_slot w = NewsData) l2
    ∧ Forall (λ w, by_step w = CreateReport ∧ to_slot w = FinalReport) l3
    ∧ (length l3 ≤ 1)%nat
    ∧ nasa_data st = default [] (value <$> last l1)
    ∧ news_data st = default [] (value <$> last l2)
    ∧ final_report st = default [] (value <$> last l3)
    ∧ (∀ tools resp,
         get_tools env GetNasa = inr tools →
         llm_with_tools env (messages initial_state ++ [nasa_request]) = inr resp →
         res = inr () →
         length l1 = length (known tools (tool_calls resp)))
    ∧ (∀ tools resp,
         get_tools env GetNews = inr tools →
         llm_with_tools env [news_request] = inr resp →
         res = inr () →
         length l2 = length (known tools (tool_calls resp))).
Proof.
  unfold ainvoke_workflow. rewrite workflow_unfold.
  destruct (get_nasa_data_spec env initial_state [])
    as (st1 & l1 & (E1 & A1 & O1 & V1) & N1).
  destruct (get_nasa_data env (initial_state, [])) as [r1 [st1' lg1]] eqn:R1.
  cbn [fst snd app] in E1, N1. injection E1 as -> ->.
  pose proof (O1 NewsData ltac:(done)) as On1.
  pose proof (O1 FinalReport ltac:(done)) as Of1.
  cbn [get_slot initial_state news_data final_report nasa_data] in On1, Of1, V1.
  destruct r1 as [e|[]].
  { exists (inl e), st1, l1, [], []. rewrite !(right_id_L [] (++)).
    split; [done|]. split; [done|]. split; [done|]. split; [done|].
    split; [cbn; lia|]. split; [done|]. split; [done|]. split; [done|].
    split; intros ?? _ _ [=]. }
  destruct (get_news_data_spec env st1 l1)
    as (st2 & l2 & (E2 & A2 & O2 & V2) & N2).
  destruct (get_news_data env (st1, l1)) as [r2 [st2' lg2]] eqn:R2.
  cbn [fst snd] in E2, N2. injection E2 as -> ->.
  pose proof (O2 NasaData ltac:(done)) as On2.
  pose proof (O2 FinalReport ltac:(done)) as Of2.
  cbn [get_slot] in On2, Of2, V2.
  destruct r2 as [e|[]].
  { exists (inl e), st2, l1, l2, []. rewrite !(right_id_L [] (++)).
    split; [done|]. split; [done|]. split; [done|]. split; [done|].
    split; [cbn; lia|]. split; [congruence|]. split; [congruence|].
    split; [cbn; congruence|]. split; intros ?? _ _ [=]. }
  destruct (create_report_spec env st2 (l1 ++ l2))
    as (st3 & l3 & (E3 & A3 & O3 & V3) & L3).
  destruct (create_report env (st2, l1 ++ l2)) as [r3 [st3' lg3]] eqn:R3.
  cbn [fst snd] in E3. injection E3 as -> ->.
  pose proof (O3 NasaData ltac:(done)) as On3.
  pose proof (O3 NewsData ltac:(done)) as Oe3.
  cbn [get_slot] in On3, Oe3, V3.
  exists r3, st3, l1, l2, l3.
  split; [by rewrite <-(assoc_L (++))|].
  split; [done|]. split; [done|]. split; [done|]. split; [done|].
  split; [congruence|]. split; [congruence|]. split; [congruence|].
  split; intros tools resp Ht Hr _; eauto.
Qed.

(** C3, amended: when the planner asks for a tool that the catalogue does
    not have and for one that it has and that answers, the node ends
    normally; the request with the unknown name is passed over and leaves
    no entry, neither a result nor an error text; the answer of the valid
    tool is the one value assigned, to the key of the node, and the rest
    of the state is as the node found it, but for the request of the node
    itself at the end of the conversation. The final report is the reply
    of the model in [create_report], empty when that reply is empty. *)
Theorem unknown_tool_passed_over_without_entry
    (env : environment) (r : run_state) (tools : list tool) (resp : ai_response)
    (bad good : tool_call) (t : tool) (out : str) :
  get_tools env GetNasa = inr tools →
  llm_with_tools env (messages r.1 ++ [nasa_request]) = inr resp →
  tool_calls resp = [bad; good] ∨ tool_calls resp = [good; bad] →
  find_tool (call_name bad) tools = None →
  find_tool (call_name good) tools = Some t →
  ainvoke t (call_args good) = inr out →
  (∃ st', get_nasa_data env r
          = (inr (), (st', r.2 ++ [Write_ GetNasa NasaData out]))
          ∧ nasa_data st' = out
          ∧ messages st' = messages r.1 ++ [nasa_request]
          ∧ news_data st' = news_data r.1
          ∧ final_report st' = final_report r.1)
  ∧ (∀ r' rep, llm env [HumanMessage (report_prompt r'.1)] = inr rep →
       ∃ st'', create_report env r'
               = (inr (), (st'', r'.2 ++ [Write_ CreateReport FinalReport (reply rep)]))
               ∧ final_report st'' = reply rep
               ∧ messages st'' = messages r'.1
               ∧ nasa_data st'' = nasa_data r'.1
               ∧ news_data st'' = news_data r'.1).
Proof.
  intros Ht Hr Hcalls Hbad Hgood Hout. split.
  - rewrite get_nasa_data_unfold, Ht. cbn zeta. rewrite Hr.
    exists (set_slot NasaData out (with_messages (messages r.1 ++ [nasa_request]) r.1)).
    split; [|by repeat split].
    destruct Hcalls as [-> | ->];
      repeat (rewrite run_tool_calls_cons, ?Hbad, ?Hgood, ?Hout); reflexivity.
  - intros r' rep Hrep. rewrite create_report_unfold, Hrep.
    eexists. split; [reflexivity|]. by repeat split.
Qed.

(** The same for [get_news_data], whose loop is the same. *)
Lemma unknown_tool_passed_over_in_news_node
    (env : environment) (r : run_state) (tools : list tool) (resp : ai_response)
    (bad good : tool_call) (t : tool) (out : str) :
  get_tools env GetNews = inr tools →
  llm_with_tools env [news_request] = inr resp →
  tool_calls resp = [bad; good] ∨ tool_calls resp = [good; bad] →
  find_tool (call_name bad) tools = None →
  find_tool (call_name good) tools = Some t →
  ainvoke t (call_args good) = inr out →
  get_news_data env r
  = (inr (), (set_slot NewsData out r.1, r.2 ++ [Write_ GetNews NewsData out])).
Proof.
  intros Ht Hr Hcalls Hbad Hgood Hout.
  rewrite get_news_data_unfold, Ht, Hr.
  destruct Hcalls as [-> | ->];
    repeat (rewrite run_tool_calls_cons, ?Hbad, ?Hgood, ?Hout); reflexivity.
Qed.

(** C3, as stated, fails: the run ends normally, but the request for the
    unknown tool leaves no entry at all, so one output is captured in the
    node and not two, and the final report is empty when the model replies
    with the empty string. *)
Lemma unknown_tool_leaves_no_error_entry :
  (ainvoke_workflow unknown_and_valid).1 = inr ()
  ∧ (ainvoke_workflow unknown_and_valid).2.2
    = [Write_ GetNasa NasaData (py "picture");
       Write_ GetNews NewsData (py "picture");
       Write_ CreateReport FinalReport []]
  ∧ length (writes_to NasaData (ainvoke_workflow unknown_and_valid).2.2) ≠ 2%nat
  ∧ final_report (ainvoke_workflow unknown_and_valid).2.1 = [].
Proof. by vm_compute. Qed.

Lemma unknown_tool_passed_over_without_entry_witness :
  find_tool (py "no_such_tool") [apod_tool; news_tool] = None
  ∧ find_tool (py "get_astronomy_picture") [apod_tool; news_tool] = Some apod_tool
  ∧ ∃ st', get_nasa_data unknown_and_valid (initial_state, [])
           = (inr (), (st', [] ++ [Write_ GetNasa NasaData (py "picture")]))
           ∧ nasa_data st' = py "picture"
           ∧ messages st' = messages initial_state ++ [nasa_request]
           ∧ news_data st' = news_data initial_state
           ∧ final_report st' = final_report initial_state.
Proof.
  split; [reflexivity|]. split; [reflexivity|].
  exact (proj1 (unknown_tool_passed_over_without_entry unknown_and_valid
                  (initial_state, []) [apod_tool; news_tool] one_unknown_one_valid
                  (ask (py "no_such_tool")) (ask (py "get_astronomy_picture"))
                  apod_tool (py "picture")
                  eq_refl eq_refl (or_introl eq_refl) eq_refl eq_refl eq_refl)).
Defined.

(** C4, as stated, fails: with two requests for tools that exist,
    [nasa_data] is assigned twice in the one run, the second value
    replacing the first. *)
Lemma slot_assigned_twice_in_one_run :
  (ainvoke_workflow two_valid).1 = inr ()
  ∧ writes_to NasaData (ainvoke_workflow two_valid).2.2
    = [Write_ GetNasa NasaData (py "picture"); Write_ GetNasa NasaData (py "headline")]
  ∧ ¬ (length (writes_to NasaData (ainvoke_workflow two_valid).2.2) ≤ 1)%nat
  ∧ nasa_data (ainvoke_workflow two_valid).2.1 = py "headline".
Proof.
  split; [by vm_compute|]. split; [by vm_compute|]. split; [|by vm_compute].
  assert (length (writes_to NasaData (ainvoke_workflow two_valid).2.2) = 2%nat)
    as -> by (by vm_compute).
  lia.
Qed.

Lemma slot_assigned_only_by_its_node_witness :
  ∃ res st l1 l2 l3,
    ainvoke_workflow two_valid = (res, (st, l1 ++ l2 ++ l3))
    ∧ Forall (λ w, by_step w = GetNasa ∧ to_slot w = NasaData) l1
    ∧ Forall (λ w, by_step w = GetNews ∧ to_slot w = NewsData) l2
    ∧ Forall (λ w, by_step w = CreateReport ∧ to_slot w = FinalReport) l3.
Proof.
  destruct (slot_assigned_only_by_its_node two_valid)
    as (res & st & l1 & l2 & l3 & E & H1 & H2 & H3 & _).
  exists res, st, l1, l2, l3. split; [exact E|]. split; [exact H1|].
  split; [exact H2|exact H3].
Defined.

(** ** The tools of [server.py] without their keys *)

Section MissingKeys.

(** When the constructor of the search client refuses a missing key, the
    module does not load and none of its tools can be called. *)
Lemma load_fails_when_client_refuses_missing_key
    (getenv : str → option str)
    (Tavily : option str → exn + Server.TavilyClient) (e : exn) :
  getenv (py "TAVILY_API_KEY") = None → Tavily None = inl e →
  Server.load getenv Tavily = inl e.
Proof. intros Hk Hc. unfold Server.load. by rewrite Hk, Hc. Qed.

(** The news tools answer with the message about the key, whatever the
    arguments and the network. *)
Lemma news_tools_report_missing_key
    (m : Server.module) (requests_get : Server.http)
    (country : str) (category q : option str)
    (week_ago query : str) (from_date : option str) (sort_by : str) :
  Server.absent (Server.NEWS_API_KEY m) = true →
  Server.get_top_headlines m requests_get country category q
  = inr Server.missing_news_key
  ∧ Server.search_news m requests_get week_ago query from_date sort_by
    = inr Server.missing_news_key.
Proof.
  intros Hk. unfold Server.get_top_headlines, Server.search_news.
  by rewrite Hk.
Qed.

(** C9, on the code: without their key the two news tools return the
    message that names the missing key, but [web_search] has no such
    check: when the search raises, the handler returns the result of
    [client.get_search_context], and when that call raises as well the
    exception leaves the tool. *)
Theorem web_search_raises_without_key
    (m : Server.module) (requests_get : Server.http)
    (country : str) (category q : option str)
    (week_ago query : str) (from_date : option str) (sort_by : str)
    (e1 e2 : exn) :
  Server.absent (Server.NEWS_API_KEY m) = true →
  Server.search (Server.client m) query = inl e1 →
  Server.get_search_context (Server.client m) query = inl e2 →
  Server.get_top_headlines m requests_get country category q
  = inr Server.missing_news_key
  ∧ Server.search_news m requests_get week_ago query from_date sort_by
    = inr Server.missing_news_key
  ∧ Server.web_search m query = inl e2.
Proof.
  intros Hk Hs Hc.
  destruct (news_tools_report_missing_key m requests_get country category q
              week_ago query from_date sort_by Hk) as [-> ->].
  split; [done|]. split; [done|].
  unfold Server.web_search. by rewrite Hs.
Qed.

End MissingKeys.

Lemma web_search_raises_without_key_witness :
  Server.absent (Server.NEWS_API_KEY Server.keyless) = true
  ∧ Server.get_top_headlines Server.keyless Server.offline (py "us") None None
    = inr Server.missing_news_key
  ∧ Server.search_news Server.keyless Server.offline (py "2025-01-01") (py "nebula") None
      (py "relevancy")
    = inr Server.missing_news_key
  ∧ Server.web_search Server.keyless (py "nebula")
    = inl (CollaboratorError (py "Unauthorized: missing or invalid API key.")).
Proof.
  split; [reflexivity|].
  exact (web_search_raises_without_key Server.keyless Server.offline (py "us") None None
           (py "2025-01-01") (py "nebula") None (py "relevancy") _ _
           eq_refl eq_refl eq_refl).
Defined.

(** ** Substring tests *)

Section Substrings.

Lemma startswith_spec (p s : str) :
  startswith p s = true ↔ ∃ r, s = p ++ r.
Proof.
  revert s. induction p as [|a p IH]; intros s; simpl.
  - split; [by exists s|done].
  - destruct s as [|b s].
    + split; [done|]. by intros [r [=]].
    + rewrite andb_true_iff, N.eqb_eq, IH. split.
      * intros [-> [r ->]]. by exists r.
      * intros [r [= -> ->]]. eauto.
Qed.

Lemma contains_spec (needle hay : str) :
  contains needle hay = true ↔ infix needle hay.
Proof.
  induction hay as [|c hay IH].
  - cbn [contains]. rewrite orb_false_r, startswith_spec. split.
    + intros [r E]. by exists [], r.
    + intros (pre & post & E). symmetry in E.
      apply app_eq_nil in E as [-> [-> ->]%app_eq_nil]. by exists [].
  - cbn [contains]. rewrite orb_true_iff, IH, startswith_spec. split.
    + intros [[r E]|(pre & post & E)].
      * by exists [], r.
      * exists (c :: pre), post. by rewrite E.
    + intros ([|c' pre] & post & E).
      * left. by exists post.
      * right. injection E as -> ->. by exists pre, post.
Qed.

End Substrings.

Section RegexInversion.

Lemma plus_cls_Forall (P : N → Prop) p (s m rest : str) :
  (∀ c, p c = true → P c) → (m, rest) ∈ plus_cls p s → Forall P m ∧ m ≠ [].
Proof.
  intros Hp. revert m rest. induction s as [|c s IH]; intros m rest; simpl.
  - by intros ?%elem_of_nil.
  - destruct (p c) eqn:Ec; [|by intros ?%elem_of_nil].
    rewrite elem_of_app, list_elem_of_fmap, list_elem_of_singleton.
    intros [([m' rest'] & [= -> ->] & Hin)|[= -> ->]].
    + destruct (IH _ _ Hin). split; [constructor; auto|done].
    + split; [repeat constructor; auto|done].
Qed.

Lemma matches_cat_inv r1 r2 (s m rest : str) :
  (m, rest) ∈ matches (Cat r1 r2) s →
  ∃ m1 m2 s1, m = m1 ++ m2 ∧ (m1, s1) ∈ matches r1 s ∧ (m2, rest) ∈ matches r2 s1.
Proof.
  cbn [matches].
  intros ([m1 s1] & ([m2 s2] & Hin & H2)%list_elem_of_bind & H1)%list_elem_of_bind.
  apply list_elem_of_singleton in Hin. cbn [fst snd] in *. injection Hin as -> ->.
  by exists m1, m2, s1.
Qed.

Lemma matches_lit (l s : str) :
  matches (lit l) s = if startswith l s then [(l, drop (length l) s)] else [].
Proof.
  revert s. induction l as [|a l IH]; intros s; [done|].
  change (lit (a :: l)) with (Cat (Cls (N.eqb a)) (lit l)). cbn [matches startswith].
  destruct s as [|b s]; [done|].
  destruct (N.eqb_spec a b) as [->|Hne]; [|done]. csimpl.
  rewrite IH. by destruct (startswith l s).
Qed.

Lemma matches_lit_inv (l s m rest : str) :
  (m, rest) ∈ matches (lit l) s → m = l ∧ s = l ++ rest.
Proof.
  intros Hin. pose proof (matches_split _ _ _ _ Hin) as E.
  rewrite matches_lit in Hin. destruct (startswith l s); [|by apply elem_of_nil in Hin].
  apply list_elem_of_singleton in Hin. by injection Hin as -> ->.
Qed.

Lemma matches_opt_s_inv (s m rest : str) :
  (m, rest) ∈ matches (Opt (Cls (N.eqb 0x73))) s → m = [] ∨ m = py "s".
Proof.
  cbn [matches]. intros [Hin|[= -> ->]%list_elem_of_singleton]%elem_of_app; [|by left].
  destruct s as [|c s]; [by apply elem_of_nil in Hin|].
  destruct (0x73 =? c) eqn:E; [|by apply elem_of_nil in Hin].
  apply N.eqb_eq in E as <-.
  apply list_elem_of_singleton in Hin. injection Hin as -> ->. by right.
Qed.

Lemma url_any_shaped (s m rest : str) :
  (m, rest) ∈ matches url_any s → url_shaped m.
Proof.
  unfold url_any.
  intros (m1 & m' & s1 & -> & [-> _]%matches_lit_inv & H)%matches_cat_inv.
  apply matches_cat_inv in H as (o & m'' & s2 & -> & Ho%matches_opt_s_inv & H).
  apply matches_cat_inv in H as (m3 & body & s3 & -> & [-> _]%matches_lit_inv & H).
  cbn [matches] in H.
  apply (plus_cls_Forall (λ c, is_space c = false)) in H as [Hb Hne].
  2:{ intros c. unfold not_space. by intros ->%negb_true_iff. }
  exists o, body. split; [done|]. split; [|done].
  destruct Ho as [->| ->]; auto.
Qed.

Lemma url_img_shaped (s m rest : str) :
  (m, rest) ∈ matches url_img s →
  url_shaped m ∧ ∃ stem ext, m = stem ++ py "." ++ ext ∧ image_ext ext.
Proof.
  unfold url_img.
  intros (m1 & m' & s1 & -> & [-> _]%matches_lit_inv & H)%matches_cat_inv.
  apply matches_cat_inv in H as (o & m'' & s2 & -> & Ho%matches_opt_s_inv & H).
  apply matches_cat_inv in H as (m3 & rest3 & s3 & -> & [-> _]%matches_lit_inv & H).
  apply matches_cat_inv in H as (body & tl & s4 & -> & Hbody & H).
  apply matches_cat_inv in H as (dot & ext & s5 & -> & Hdot & Hext).
  cbn [matches] in Hbody.
  apply (plus_cls_Forall (λ c, is_space c = false)) in Hbody as [Hb Hne].
  2:{ intros c. unfold not_space. by intros ->%negb_true_iff. }
  assert (dot = py ".") as ->.
  { cbn [matches] in Hdot. destruct s4 as [|c s4]; [by apply elem_of_nil in Hdot|].
    destruct (0x2E =? c) eqn:E; [|by apply elem_of_nil in Hdot].
    apply N.eqb_eq in E as <-.
    apply list_elem_of_singleton in Hdot. by injection Hdot as -> ->. }
  assert (image_ext ext) as Hx.
  { cbn [matches] in Hext. unfold image_ext.
    repeat (apply elem_of_app in Hext as [Hext|Hext]);
      apply matches_lit_inv in Hext as [-> _]; auto. }
  split.
  - exists o, (body ++ py "." ++ ext). split; [done|]. split.
    { destruct Ho as [->| ->]; auto. }
    split; [by destruct body|].
    apply Forall_app. split; [done|].
    destruct Hx as [->|[->|[->| ->]]]; by repeat constructor.
  - exists (py "http" ++ o ++ py "://" ++ body), ext.
    split; [|done]. by rewrite <-!(assoc_L (++)).
Qed.

(** A group of [findall] is the group of a match at some place. *)
Lemma findall_from_match p (s : str) :
  ∀ k g, g ∈ findall_from p k s → ∃ s' whole, match_at p s' = Some (whole, g).
Proof.
  induction s as [|c s IH]; intros [|k] g; simpl;
    try (by intros ?%elem_of_nil).
  - destruct (match_at p []) as [[whole g']|] eqn:E; [|by intros ?%elem_of_nil].
    intros ->%list_elem_of_singleton. eauto.
  - destruct (match_at p (c :: s)) as [[whole g']|] eqn:E.
    + intros [->|Hin]%elem_of_cons; eauto.
    + eauto.
  - eauto.
Qed.

Lemma match_at_group p (s whole g : str) :
  match_at p s = Some (whole, g) → ∃ s1 rest, (g, rest) ∈ matches (grp p) s1.
Proof.
  unfold match_at. intros Hh%head_Some_elem_of.
  apply list_elem_of_bind in Hh as ([m1 s1] & Hh & H1).
  apply list_elem_of_bind in Hh as ([m2 s2] & Hin & H2).
  apply list_elem_of_singleton in Hin. cbn [fst snd] in *. injection Hin as -> ->.
  eauto.
Qed.

Lemma findall_group p (s g : str) :
  g ∈ findall p s → ∃ s1 rest, (g, rest) ∈ matches (grp p) s1.
Proof.
  intros (s' & whole & Hm)%findall_from_match. by eapply match_at_group.
Qed.

End RegexInversion.

(** ** What the extraction returns *)

Section ExtractedUrls.

Lemma extracted_url_occurs_in_text (text u : str) :
  u ∈ extract_images_from_text text → infix u text.
Proof.
  intros Hu%elem_of_extract. rewrite raw_images_bind in Hu.
  apply list_elem_of_bind in Hu as (p & Hu & _). by eapply findall_infix.
Qed.

Lemma raw_image_from_pattern (text u : str) :
  u ∈ raw_images text ↔
  u ∈ findall pat_image_url text ∨ u ∈ findall pat_hd_image text
  ∨ u ∈ findall pat_link_image text ∨ u ∈ findall pat_bare text.
Proof.
  rewrite raw_images_bind. unfold nasa_patterns. csimpl.
  rewrite (right_id_L [] (++)), !elem_of_app. tauto.
Qed.

(** X1: every URL the extraction returns has the shape
    [https?://[^\s]+]: it starts with [http://] or [https://], goes on
    with at least one character and holds no whitespace. *)
Theorem extracted_urls_are_http_urls (text u : str) :
  u ∈ extract_images_from_text text →
  url_shaped u
  ∧ (startswith (py "http://") u || startswith (py "https://") u = true)
  ∧ Forall (λ c, is_space c = false) u.
Proof.
  intros Hu%elem_of_extract%raw_image_from_pattern.
  assert (url_shaped u) as Hs.
  { destruct Hu as [Hu|[Hu|[Hu|Hu]]];
      apply findall_group in Hu as (s1 & rest & Hu); cbn [grp] in Hu;
      first [by eapply url_any_shaped | by eapply url_img_shaped]. }
  split; [done|]. destruct Hs as (s & body & -> & Hs & Hne & Hb).
  split.
  - destruct Hs as [->| ->]; by destruct body.
  - rewrite !Forall_app. split; [by repeat constructor|]. split.
    { destruct Hs as [->| ->]; by repeat constructor. }
    split; [by repeat constructor|done].
Qed.

(** X2: a URL that neither the picture marker nor the telescope marker
    introduces is extracted only when it ends in [.jpg], [.jpeg], [.png]
    or [.gif], in lower case. *)
Theorem unlabelled_urls_end_in_image_extension (text u : str) :
  u ∈ extract_images_from_text text →
  u ∉ findall pat_image_url text → u ∉ findall pat_hd_image text →
  ∃ stem ext, u = stem ++ py "." ++ ext ∧ image_ext ext.
Proof.
  intros Hu%elem_of_extract%raw_image_from_pattern H1 H2.
  destruct Hu as [Hu|[Hu|[Hu|Hu]]]; [done|done| |];
    apply findall_group in Hu as (s1 & rest & Hu); cbn [grp] in Hu;
    by apply url_img_shaped in Hu as [_ ?].
Qed.

(** X3: a text in which [http] does not occur yields no image, and a
    report whose tool outputs are all such texts has no images section:
    the tool outputs follow the answer directly. *)
Theorem no_http_no_images
    (now : datetime) (question answer : str) (tool_outputs : list str) :
  Forall (λ o, contains (py "http") o = false) tool_outputs →
  Forall (λ o, extract_images_from_text o = []) tool_outputs
  ∧ all_images tool_outputs = []
  ∧ md_content now question answer tool_outputs
    = md_head now question answer ++ outputs_section tool_outputs.
Proof.
  intros Hno.
  assert (Forall (λ o, extract_images_from_text o = []) tool_outputs) as Hex.
  { eapply Forall_impl; [exact Hno|]. intros o Ho. cbn beta in Ho.
    destruct (extract_images_from_text o) as [|u l] eqn:E; [done|].
    assert (u ∈ extract_images_from_text o) as Hu by (rewrite E; left).
    pose proof (extracted_url_occurs_in_text o u Hu) as (pre & post & Eo).
    apply extracted_urls_are_http_urls in Hu as ((s & body & -> & _) & _).
    assert (contains (py "http") o = true) as Hc; [|congruence].
    apply contains_spec. exists pre, (s ++ py "://" ++ body ++ post).
    rewrite Eo. by rewrite <-!(assoc_L (++)). }
  assert (all_images tool_outputs = []) as Hall.
  { rewrite all_images_bind. clear Hno.
    induction Hex as [|o outs Ho _ IH]; [done|]. csimpl. by rewrite Ho, IH. }
  split; [done|]. split; [done|]. unfold md_content. by rewrite Hall.
Qed.

End ExtractedUrls.

(** ** From the text of a tool to the images of the report *)

Section RoundTrip.

Lemma startswith_app (l x : str) : startswith l (l ++ x) = true.
Proof. apply startswith_spec. by exists x. Qed.

Lemma matches_lit_app (l x : str) : matches (lit l) (l ++ x) = [(l, x)].
Proof. by rewrite matches_lit, startswith_app, drop_app_length. Qed.

Lemma head_bind {A B} (f : A → list B) (l : list A) (x : A) (y : B) :
  head l = Some x → head (f x) = Some y → head (l ≫= f) = Some y.
Proof.
  destruct l as [|x' l]; [done|]. intros [= ->]. csimpl.
  destruct (f x) as [|y' l']; [done|]. by intros [= ->].
Qed.

Lemma matches_cat_head r1 r2 (s m1 s1 m2 s2 : str) :
  head (matches r1 s) = Some (m1, s1) →
  head (matches r2 s1) = Some (m2, s2) →
  head (matches (Cat r1 r2) s) = Some (m1 ++ m2, s2).
Proof.
  intros H1 H2. cbn [matches]. eapply head_bind; [exact H1|]. cbn [fst snd].
  eapply head_bind; [exact H2|]. done.
Qed.

Lemma plus_cls_stops (rest : str) : url_end rest → plus_cls not_space rest = [].
Proof.
  intros [->|(c & r & -> & Hc)]; [done|]. cbn. unfold not_space. by rewrite Hc.
Qed.

Lemma head_app_l {A} (l1 l2 : list A) (x : A) :
  head l1 = Some x → head (l1 ++ l2) = Some x.
Proof. by destruct l1. Qed.

Lemma head_fmap_Some {A B} (f : A → B) (l : list A) (x : A) :
  head l = Some x → head (f <$> l) = Some (f x).
Proof. destruct l; [done|]. by intros [= ->]. Qed.

Lemma bind_all_nil {A B} (f : A → list B) (l : list A) :
  (∀ x, x ∈ l → f x = []) → l ≫= f = [].
Proof.
  induction l as [|x l IH]; [done|]. intros H. csimpl.
  rewrite (H x) by left. apply IH. intros y Hy. apply H. by right.
Qed.

Lemma plus_cls_head (body rest : str) :
  body ≠ [] → Forall (λ c, is_space c = false) body → url_end rest →
  head (plus_cls not_space (body ++ rest)) = Some (body, rest).
Proof.
  intros Hne Hb Hrest. induction Hb as [|c body Hc Hb IH]; [done|].
  cbn [app plus_cls]. unfold not_space at 1. rewrite Hc. cbn [negb].
  destruct body as [|c' body].
  - cbn [app]. by rewrite plus_cls_stops.
  - apply head_app_l.
    by apply (head_fmap_Some (prod_map (cons c) id) _ (c' :: body, rest)), IH.
Qed.

(** The greedy run gives characters back until the rest of the
    expression matches: when no continuation inside [tail] lets [r2]
    match, the match ends where [tail] begins. *)
Lemma plus_then_head r2 (body tail m2 s2 : str) :
  body ≠ [] → Forall (λ c, is_space c = false) body →
  (∀ m rst, (m, rst) ∈ plus_cls not_space tail → matches r2 rst = []) →
  head (matches r2 tail) = Some (m2, s2) →
  head (matches (Cat (PlusCls not_space) r2) (body ++ tail)) = Some (body ++ m2, s2).
Proof.
  intros Hne Hb Hfail H2. cbn [matches].
  set (f := λ m1 : str * str,
         m2 ← matches r2 m1.2; [(m1.1 ++ m2.1, m2.2)]).
  assert (∀ c l, (prod_map (cons c) id <$> l) ≫= f
                 = prod_map (cons c) id <$> (l ≫= f)) as Hpre.
  { intros c l. induction l as [|[m rst] l IH]; [done|]. csimpl.
    rewrite IH, fmap_app. f_equal. unfold f. cbn [fst snd].
    induction (matches r2 rst) as [|[m' s'] l' IH']; [done|]. csimpl.
    by rewrite <-IH'. }
  induction Hb as [|c body Hc Hb IH]; [done|].
  cbn [app plus_cls]. unfold not_space at 1. rewrite Hc. cbn [negb].
  rewrite bind_app, Hpre. destruct body as [|c' body].
  - cbn [app]. rewrite (bind_all_nil f).
    2:{ intros [m rst] Hin. unfold f. cbn [fst snd]. by rewrite (Hfail m rst). }
    cbn [fmap list_fmap app]. csimpl. unfold f at 1. cbn [fst snd].
    rewrite (right_id_L [] (++)).
    eapply head_bind; [exact H2|]. done.
  - apply head_app_l.
    by apply (head_fmap_Some (prod_map (cons c) id) _ ((c' :: body) ++ m2, s2)), IH.
Qed.

Lemma opt_s_head (s x : str) :
  s = [] ∨ s = py "s" →
  head (matches (Opt (Cls (N.eqb 0x73))) (s ++ py "://" ++ x)) = Some (s, py "://" ++ x).
Proof. by intros [->| ->]. Qed.

Lemma url_any_head (u rest : str) :
  url_shaped u → url_end rest →
  head (matches url_any (u ++ rest)) = Some (u, rest).
Proof.
  intros (s & body & -> & Hs & Hne & Hb) Hrest. unfold url_any.
  rewrite <-!(assoc_L (++)).
  eapply matches_cat_head; [by rewrite matches_lit_app|].
  eapply matches_cat_head; [by apply opt_s_head|].
  eapply matches_cat_head; [by rewrite matches_lit_app|].
  cbn [matches]. by apply plus_cls_head.
Qed.

Lemma dot_ext_fails (rest : str) :
  url_end rest →
  matches (Cat (Cls (N.eqb 0x2E))
             (Alt (lit (py "jpg")) (Alt (lit (py "jpeg"))
                (Alt (lit (py "png")) (lit (py "gif")))))) rest = [].
Proof.
  intros [->|(c & r & -> & Hc)]; [done|]. cbn [matches].
  destruct (0x2E =? c) eqn:E; [|done].
  apply N.eqb_eq in E as <-. by vm_compute in Hc.
Qed.

Lemma rest_after_run (e rest m rst : str) :
  m ++ rst = e ++ rest → Forall (λ c, is_space c = false) m → url_end rest →
  ∃ k, rst = drop k e ++ rest.
Proof.
  intros E Hm Hrest. revert m E Hm. induction e as [|a e IH]; intros m E Hm.
  - destruct m as [|c m]; [by exists 0%nat|]. cbn in E. exfalso.
    apply Forall_cons in Hm as [Hc _].
    destruct Hrest as [->|(c' & r & -> & Hc')]; [done|]. congruence.
  - destruct m as [|c m]; [by exists 0%nat|]. injection E as -> E.
    apply Forall_cons in Hm as [_ Hm]. destruct (IH m E Hm) as [k ->].
    by exists (S k).
Qed.

Lemma url_img_head (u rest : str) :
  image_url_shaped u → url_end rest →
  head (matches url_img (u ++ rest)) = Some (u, rest).
Proof.
  intros (s & body & ext & -> & Hs & Hne & Hb & Hx) Hrest. unfold url_img.
  rewrite <-!(assoc_L (++)).
  eapply matches_cat_head; [by rewrite matches_lit_app|].
  eapply matches_cat_head; [by apply opt_s_head|].
  eapply matches_cat_head; [by rewrite matches_lit_app|].
  apply (plus_then_head _ body (py "." ++ ext ++ rest) (py "." ++ ext) rest);
    [done|done| |].
  - intros m rst Hin.
    pose proof (plus_cls_split _ _ _ _ Hin) as E.
    apply (plus_cls_Forall (λ c, is_space c = false)) in Hin as [Hm Hm'].
    2:{ intros c. unfold not_space. by intros ->%negb_true_iff. }
    destruct m as [|c m]; [done|]. injection E as <- E.
    apply Forall_cons in Hm as [_ Hm].
    destruct (rest_after_run ext rest m rst (eq_sym E) Hm Hrest) as [k ->].
    pose proof (dot_ext_fails rest Hrest) as Hfail.
    destruct Hx as [->|[->|[->| ->]]];
      do 5 (destruct k as [|k]; [reflexivity || exact Hfail|]); exact Hfail.
  - destruct Hx as [->|[->|[->| ->]]]; reflexivity.
Qed.

Lemma match_at_marker (marker u rest : str) g :
  head (matches g (u ++ rest)) = Some (u, rest) →
  match_at (Pattern (lit marker) g) (marker ++ u ++ rest) = Some (marker ++ u, u).
Proof.
  intros Hg. unfold match_at. cbn [pre grp].
  eapply head_bind; [by rewrite matches_lit_app|]. cbn [fst snd].
  eapply head_bind; [exact Hg|]. done.
Qed.

Lemma url_shaped_no_space (u : str) :
  url_shaped u → Forall (λ c, is_space c = false) u.
Proof.
  intros (s & body & -> & Hs & _ & Hb).
  rewrite !Forall_app. split; [by repeat constructor|]. split.
  { destruct Hs as [->| ->]; by repeat constructor. }
  split; [by repeat constructor|done].
Qed.

Lemma group_shaped p (s1 g rest : str) :
  p ∈ nasa_patterns → (g, rest) ∈ matches (grp p) s1 → url_shaped g.
Proof.
  unfold nasa_patterns. rewrite !elem_of_cons, elem_of_nil.
  intros [->|[->|[->|[->|[]]]]] Hg; cbn [grp] in Hg;
    first [by eapply url_any_shaped | by eapply url_img_shaped].
Qed.

(** No match of the four patterns holds a line feed. *)
Lemma match_has_no_line_feed p (s whole g : str) :
  p ∈ nasa_patterns → match_at p s = Some (whole, g) → 0x0A ∉ whole.
Proof.
  intros Hp. unfold match_at. intros Hh%head_Some_elem_of.
  apply list_elem_of_bind in Hh as ([m1 s1] & Hh & H1).
  apply list_elem_of_bind in Hh as ([m2 s2] & Hin & H2).
  apply list_elem_of_singleton in Hin. cbn [fst snd] in *. injection Hin as -> ->.
  apply not_elem_of_app. split.
  - revert H1. unfold nasa_patterns in Hp.
    rewrite !elem_of_cons, elem_of_nil in Hp.
    destruct Hp as [->|[->|[->|[->|[]]]]]; cbn [pre].
    1-3: intros [-> _]%matches_lit_inv; intros Hin;
         repeat (apply elem_of_cons in Hin as [Hin|Hin]; [done|]);
         by apply elem_of_nil in Hin.
    cbn [matches]. intros [= -> ->]%list_elem_of_singleton. apply not_elem_of_nil.
  - apply (group_shaped p) in H2; [|done].
    apply url_shaped_no_space in H2. rewrite Forall_forall in H2.
    intros Hin. by apply H2 in Hin.
Qed.

Lemma prefix_before_line_feed (w rest x b : str) :
  w ++ rest = x ++ 0x0A :: b → 0x0A ∉ w → (length w ≤ length x)%nat.
Proof.
  revert w. induction x as [|c x IH]; intros w E Hw.
  - destruct w as [|c w]; [done|]. injection E as -> _.
    exfalso. apply Hw. left.
  - destruct w as [|c' w]; [cbn; lia|]. injection E as -> E.
    apply not_elem_of_cons in Hw as [_ Hw]. cbn. specialize (IH w E Hw). lia.
Qed.

(** A match that starts right after a line feed is found, whatever
    stands before that line feed. *)
Lemma findall_after_line_feed p (a b whole g : str) :
  p ∈ nasa_patterns →
  match_at p b = Some (whole, g) →
  g ∈ findall p (a ++ nl ++ b).
Proof.
  intros Hp Hb. unfold findall. change (nl ++ b) with (0x0A :: b).
  assert (∀ k, (k ≤ S (length a))%nat → g ∈ findall_from p k (a ++ 0x0A :: b))
    as H; [|apply H; lia].
  induction a as [|c a IH]; intros k Hk.
  - cbn [app]. assert (g ∈ findall_from p 0 b) as H0.
    { destruct b; cbn [findall_from]; rewrite Hb; left. }
    destruct k as [|[|k]]; [|exact H0|cbn in Hk; lia].
    cbn [findall_from].
    destruct (match_at p (0x0A :: b)) as [[w g']|] eqn:E; [|exact H0].
    right.
    pose proof (match_has_no_line_feed p _ _ _ Hp E) as Hw.
    apply match_at_split in E as (a' & rest & -> & E).
    destruct (a' ++ g') as [|c w]; [exact H0|].
    injection E as <- _. exfalso. apply Hw. left.
  - cbn [app]. destruct k as [|k].
    + cbn [findall_from].
      destruct (match_at p (c :: a ++ 0x0A :: b)) as [[w g']|] eqn:E.
      * right. apply IH.
        pose proof (match_has_no_line_feed p _ _ _ Hp E) as Hw.
        apply match_at_split in E as (a' & rest & Ew & E).
        pose proof (prefix_before_line_feed w rest (c :: a) b (eq_sym E) Hw) as Hl.
        cbn [length] in Hl. lia.
      * apply IH. lia.
    + cbn [findall_from]. apply IH. cbn [length] in Hk. lia.
Qed.

Lemma found_is_extracted p (text g : str) :
  p ∈ nasa_patterns → g ∈ findall p text → g ∈ extract_images_from_text text.
Proof.
  intros Hp Hg. apply elem_of_extract. rewrite raw_images_bind.
  apply list_elem_of_bind. by exists p.
Qed.

Lemma url_end_line_feed (x : str) : url_end (nl ++ x).
Proof. right. by exists 0x0A, x. Qed.

End RoundTrip.

Section ToolsToImages.

Lemma pat_image_url_marker :
  pat_image_url = Pattern (lit Server.picture_marker) url_any.
Proof. reflexivity. Qed.

Lemma pat_hd_image_marker :
  pat_hd_image = Pattern (lit Server.telescope_marker) url_any.
Proof. reflexivity. Qed.

Lemma pat_link_image_marker :
  pat_link_image = Pattern (lit Server.link_marker) url_img.
Proof. reflexivity. Qed.

(** X5: the picture of the day reaches the report. When the service
    answers with an image whose URL has the shape [https?://[^\s]+], the
    text that [get_astronomy_picture] returns is one from which
    [extract_images_from_text] extracts that URL, and the URL of the
    high-definition picture as well when there is one of that shape;
    whatever the title and the explanation say. *)
Theorem astronomy_picture_is_extracted
    (m : Server.module) (requests_get : Server.apod_http) (date : option str)
    (data : Server.apod_reply) :
  requests_get (py "https://api.nasa.gov/planetary/apod") (Server.apod_params m date)
  = inr data →
  Server.media_type data = Some (py "image") →
  url_shaped (Server.apod_url data) →
  ∃ text,
    Server.get_astronomy_picture m requests_get date = inr text
    ∧ Server.apod_url data ∈ extract_images_from_text text
    ∧ (∀ h, Server.hdurl data = Some h → url_shaped h →
            h ∈ extract_images_from_text text).
Proof.
  intros Hreq Himg Hurl. exists (Server.apod_text data).
  unfold Server.get_astronomy_picture. rewrite Hreq. split; [done|].
  unfold Server.apod_text. rewrite decide_True by done. split.
  - apply (found_is_extracted pat_image_url); [set_solver|].
    apply (findall_after_line_feed _ _ _ (Server.picture_marker ++ Server.apod_url data));
      [set_solver|].
    rewrite pat_image_url_marker.
    apply match_at_marker, url_any_head; [done|]. apply url_end_line_feed.
  - intros h Hh Hshape. rewrite Hh.
    assert (∃ c h', h = c :: h') as (c & h' & ->).
    { destruct Hshape as (s & body & -> & _). by eexists _, _. }
    apply (found_is_extracted pat_hd_image); [set_solver|].
    match goal with |- _ ∈ findall _ ?t =>
      replace t with ((Server.apod_head data ++ nl ++ Server.picture_marker
                       ++ Server.apod_url data)
                      ++ nl ++ Server.telescope_marker ++ c :: h')
        by (by rewrite <- ?(assoc_L (++)))
    end.
    apply (findall_after_line_feed _ _ _ (Server.telescope_marker ++ c :: h'));
      [set_solver|].
    rewrite pat_hd_image_marker.
    rewrite <-(right_id_L [] (++) (c :: h')) at 1.
    apply match_at_marker, url_any_head; [done|by left].
Qed.

Lemma mjoin_photos_split (photos : list Server.photo) (i : nat) (p : Server.photo) :
  photos !! i = Some p →
  ∃ before after,
    mjoin (Server.photo_text <$> photos)
    = before ++ Server.photo_text p ++ after.
Proof.
  intros Hi. apply list_elem_of_split_length in Hi as (l1 & l2 & -> & _).
  exists (mjoin (Server.photo_text <$> l1)), (mjoin (Server.photo_text <$> l2)).
  by rewrite fmap_app, join_app.
Qed.

(** X6: the photos of a rover reach the report. Each of the first five
    photos of the reply whose [img_src] has the shape
    [https?://[^\s]+\.(jpg|jpeg|png|gif)] is extracted from the text that
    [get_mars_rover_photos] returns, whatever the other fields say. *)
Theorem rover_photo_is_extracted
    (capitalize : str → str) (m : Server.module) (requests_get : Server.mars_http)
    (rover : str) (sol : option Z) (camera : option str)
    (photos : list Server.photo) (i : nat) (p : Server.photo) :
  requests_get (Server.mars_url rover)
    (Server.mars_params m (Server.mars_sol rover sol) camera) = inr photos →
  (i < 5)%nat → photos !! i = Some p →
  image_url_shaped (Server.img_src p) →
  ∃ text,
    Server.get_mars_rover_photos capitalize m requests_get rover sol camera
    = inr text
    ∧ Server.img_src p ∈ extract_images_from_text text.
Proof.
  intros Hreq Hi Hp Hshape.
  assert (take 5 photos !! i = Some p) as Hp5 by by rewrite lookup_take_lt.
  destruct (mjoin_photos_split _ _ _ Hp5) as (before & after & E).
  eexists. unfold Server.get_mars_rover_photos. cbn zeta. rewrite Hreq.
  destruct photos as [|p0 photos]; [by rewrite lookup_nil in Hp|].
  split; [reflexivity|]. rewrite E. unfold Server.photo_text.
  apply (found_is_extracted pat_link_image); [set_solver|].
  match goal with |- _ ∈ findall _ ?t =>
    replace t with ((Server.mars_head capitalize rover (Server.mars_sol rover sol)
                       (length (p0 :: photos))
                     ++ before ++ [0x1F4F7] ++ py " Camera: "
                     ++ Server.camera_full_name p ++ nl
                     ++ [0x1F30D] ++ py " Earth Date: " ++ Server.earth_date p)
                    ++ nl ++ Server.link_marker ++ Server.img_src p
                    ++ nl ++ nl ++ after)
      by (by rewrite <- ?(assoc_L (++)))
  end.
  apply (findall_after_line_feed _ _ _ (Server.link_marker ++ Server.img_src p));
    [set_solver|].
  rewrite pat_link_image_marker.
  apply match_at_marker, url_img_head; [done|]. apply url_end_line_feed.
Qed.

End ToolsToImages.

(** ** The images of the report *)

Section ImagesSection.

Lemma contains_false (needle hay : str) :
  contains needle hay = false ↔ ¬ infix needle hay.
Proof. rewrite <-contains_spec. by destruct (contains needle hay). Qed.

(** X4: every extracted URL is shown in the report: the entry numbered
    by its place in the list, counted from 1, stands in the report with
    its embed and its direct link. Its caption comes from the URL alone:
    [Astronomy Picture] when [apod] or [astronomy] occurs in it, else
    [Mars Rover Photo] when [mars] occurs in it, else [Image]; the test
    is on the exact lower-case letters. *)
Theorem extracted_image_is_shown
    (now : datetime) (question answer : str) (tool_outputs : list str)
    (i : nat) (u : str) :
  all_images tool_outputs !! i = Some u →
  infix (image_block (S i) u) (md_content now question answer tool_outputs)
  ∧ infix (py "![" ++ caption_of u ++ py " " ++ str_int (S i) ++ py "]("
           ++ u ++ py ")") (image_block (S i) u)
  ∧ infix (py "[Direct Link](" ++ u ++ py ")") (image_block (S i) u)
  ∧ (infix (py "apod") u ∨ infix (py "astronomy") u →
     caption_of u = py "Astronomy Picture")
  ∧ (¬ infix (py "apod") u → ¬ infix (py "astronomy") u → infix (py "mars") u →
     caption_of u = py "Mars Rover Photo")
  ∧ (¬ infix (py "apod") u → ¬ infix (py "astronomy") u → ¬ infix (py "mars") u →
     caption_of u = py "Image").
Proof.
  intros Hi. split; [|split; [|split; [|split; [|split]]]].
  - destruct (blocks_from_lookup image_block _ 1 i u Hi) as (pre & post & E).
    unfold md_content, images_section. rewrite E.
    destruct (all_images tool_outputs) as [|u0 images];
      [by rewrite lookup_nil in Hi|].
    exists (md_head now question answer ++ py "## Images" ++ nl ++ nl ++ pre),
           (post ++ outputs_section tool_outputs).
    by rewrite <- ?(assoc_L (++)).
  - unfold image_block. cbn zeta.
    eexists (py "### " ++ caption_of u ++ py " " ++ str_int (S i) ++ nl ++ nl), _.
    rewrite <- ?(assoc_L (++)). reflexivity.
  - unfold image_block. cbn zeta.
    eexists (py "### " ++ caption_of u ++ py " " ++ str_int (S i) ++ nl ++ nl
             ++ py "![" ++ caption_of u ++ py " " ++ str_int (S i) ++ py "]("
             ++ u ++ py ")" ++ nl ++ nl), _.
    rewrite <- ?(assoc_L (++)). reflexivity.
  - unfold caption_of. intros [H|H]; apply contains_spec in H; rewrite H; [done|].
    by rewrite orb_true_r.
  - unfold caption_of. intros H1%contains_false H2%contains_false H3%contains_spec.
    by rewrite H1, H2, H3.
  - unfold caption_of. intros H1%contains_false H2%contains_false H3%contains_false.
    by rewrite H1, H2, H3.
Qed.

End ImagesSection.

(** ** More on the file name *)

Section SlugAgain.

Variable unicode_isalnum : N → bool.

Lemma filter_all (P : N → Prop) `{!∀ c, Decision (P c)} (s : str) :
  Forall P s → filter P s = s.
Proof.
  induction 1 as [|c s Hc _ IH]; [done|].
  rewrite filter_cons, decide_True by done. by rewrite IH.
Qed.

Lemma lstrip_no_space (s : str) :
  (∀ c, head s = Some c → is_space c = false) → lstrip s = s.
Proof.
  destruct s as [|c s]; [done|]. intros H. cbn. by rewrite (H c eq_refl).
Qed.

Lemma rstrip_no_space (s : str) :
  (∀ c, last s = Some c → is_space c = false) → rstrip s = s.
Proof.
  intros H. unfold rstrip. rewrite lstrip_no_space, reverse_involutive; [done|].
  intros c. rewrite head_reverse. apply H.
Qed.

Lemma replace1_absent (a b : N) (s : str) : a ∉ s → replace1 a b s = s.
Proof.
  induction s as [|c s IH]; [done|].
  intros [Hc Hs]%not_elem_of_cons. unfold replace1 in *. csimpl.
  rewrite IH by done. destruct (N.eqb_spec c a); congruence.
Qed.

(** X7: the slug of a slug is the slug itself: sanitising twice changes
    nothing. *)
Theorem safe_question_idempotent (question : str) :
  safe_question unicode_isalnum (safe_question unicode_isalnum question)
  = safe_question unicode_isalnum question.
Proof.
  set (s := safe_question unicode_isalnum question).
  pose proof (safe_question_chars unicode_isalnum question) as Hc.
  pose proof (safe_question_ends unicode_isalnum question) as He.
  pose proof (safe_question_length unicode_isalnum question) as Hl.
  fold s in Hc, He, Hl. unfold safe_question at 1.
  rewrite filter_all by (eapply Forall_impl; [exact Hc|]; by intros c [? _]).
  rewrite take_ge by done. unfold strip.
  rewrite lstrip_no_space by (intros c ?; apply He; by left).
  rewrite rstrip_no_space by (intros c ?; apply He; by right).
  apply replace1_absent. intros Hin.
  rewrite Forall_forall in Hc. by destruct (Hc _ Hin).
Qed.

Lemma digit_is_digit (n : nat) : 0x30 ≤ digit n ≤ 0x39.
Proof.
  unfold digit. pose proof (Nat.mod_upper_bound n 10 ltac:(done)). lia.
Qed.

Lemma strftime_compact_chars (d : datetime) :
  Forall (λ c, 0x30 ≤ c ≤ 0x39 ∨ c = 0x5F) (strftime_compact d).
Proof.
  unfold strftime_compact, four_digits, two_digits.
  change (py "_") with [0x5F]. cbn [app].
  repeat (apply List.Forall_cons; [first [left; apply digit_is_digit | by right]|]).
  apply List.Forall_nil.
Qed.

(** X8: the name of the report holds no [/], and before the extension no
    [.] either, whatever the question: the report is always a file
    directly inside [outputs], and the question cannot point elsewhere. *)
Theorem file_name_has_no_separator (now : datetime) (question : str) :
  (0x2F ∉ filename unicode_isalnum now question)
  ∧ (0x2E ∉ strftime_compact now ++ py "_" ++ safe_question unicode_isalnum question)
  ∧ (0x5C ∉ filename unicode_isalnum now question).
Proof.
  pose proof (strftime_compact_chars now) as Ht. rewrite Forall_forall in Ht.
  pose proof (safe_question_chars unicode_isalnum question) as Hc.
  rewrite Forall_forall in Hc. unfold filename.
  repeat split; rewrite ?not_elem_of_app; repeat split.
  all: try (intros Hin; apply Ht in Hin; lia).
  all: try (intros Hin; apply Hc in Hin as [Hk _]; by vm_compute in Hk).
  all: by intros Hin; repeat (apply elem_of_cons in Hin as [Hin|Hin]; [done|]);
       apply elem_of_nil in Hin.
Qed.

End SlugAgain.

(** ** A run that writes its report *)

Section WrittenReport.

Variable unicode_isalnum : N → bool.

Lemma mkdir_exist_ok_success (p : str) (w : fs) :
  p ∈ dirs w ∨ (files w !! p = None ∧ denied w p = false) →
  ∃ w', mkdir_exist_ok p w = (inr (), w')
        ∧ files w' = files w ∧ denied w' = denied w
        ∧ encodes w' = encodes w ∧ room w' = room w ∧ p ∈ dirs w'.
Proof.
  intros H. unfold mkdir_exist_ok, mbind, M_bind, bind, get, modify, raise, mret,
    M_ret, ret. cbn beta iota.
  destruct (decide (p ∈ dirs w)) as [Hd|Hd]; [by exists w|].
  destruct H as [?|[Hf Hden]]; [done|].
  rewrite decide_False by (rewrite Hf; apply is_Some_None). rewrite Hden.
  eexists. split; [done|]. cbn. repeat split. set_solver.
Qed.

Lemma mkdir_exist_ok_present (p : str) (w : fs) :
  p ∈ dirs w → mkdir_exist_ok p w = (inr (), w).
Proof.
  intros H. unfold mkdir_exist_ok, mbind, M_bind, bind, get. cbn beta iota.
  by rewrite decide_True.
Qed.

Lemma mkdir_exist_ok_returned (p : str) (w w' : fs) :
  mkdir_exist_ok p w = (inr (), w') →
  files w' = files w ∧ denied w' = denied w
  ∧ encodes w' = encodes w ∧ room w' = room w ∧ p ∈ dirs w'.
Proof.
  unfold mkdir_exist_ok, mbind, M_bind, bind, get, modify, raise, mret, M_ret, ret.
  cbn beta iota.
  destruct (decide (p ∈ dirs w)) as [Hd|Hd]; [by intros [= <-]|].
  case_decide; [done|]. destruct (denied w p); [done|].
  intros [= <-]. cbn. repeat split. set_solver.
Qed.

Lemma fits_same_room (w w' : fs) (p text : str) :
  room w' = room w → fits w' p text = fits w p text.
Proof. unfold fits. by intros ->. Qed.

Lemma save_to_markdown_success
    (now1 now2 : datetime) (question answer : str) (outs : list str) (w : fs) :
  let path := py "outputs" ++ py "/" ++ filename unicode_isalnum now1 question in
  let report := md_content now2 question answer outs in
  py "outputs" ∈ dirs w
  ∨ (files w !! py "outputs" = None ∧ denied w (py "outputs") = false) →
  denied w path = false →
  forallb (encodes w) report = true →
  fits w path report = true →
  ∃ w', save_to_markdown unicode_isalnum now1 now2 question answer outs w
        = (inr path, w')
        ∧ files w' = <[path := report]> (files w)
        ∧ py "outputs" ∈ dirs w'.
Proof.
  intros path report Hdir Hden Henc Hfit.
  destruct (mkdir_exist_ok_success _ _ Hdir) as (w1 & E1 & Hf1 & Hd1 & He1 & Hr1 & Hin1).
  rewrite save_to_markdown_unfold, E1, write_text_unfold.
  fold path report. rewrite Hd1, Hden, He1, Henc, (fits_same_room w w1) by done.
  rewrite Hfit. cbn [negb]. eexists. split; [reflexivity|].
  cbn. by rewrite Hf1, insert_insert_eq.
Qed.

(** What a returned [save_to_markdown] tells: the path, that it could be
    opened, and the files after it. *)
Lemma save_to_markdown_returned
    (now1 now2 : datetime) (question answer : str) (outs : list str)
    (w w1 : fs) (path : str) :
  save_to_markdown unicode_isalnum now1 now2 question answer outs w = (inr path, w1) →
  path = py "outputs" ++ py "/" ++ filename unicode_isalnum now1 question
  ∧ denied w path = false
  ∧ files w1 = <[path := md_content now2 question answer outs]> (files w)
  ∧ denied w1 = denied w ∧ encodes w1 = encodes w ∧ room w1 = room w
  ∧ py "outputs" ∈ dirs w1.
Proof.
  rewrite save_to_markdown_unfold.
  destruct (mkdir_exist_ok (py "outputs") w) as [[e|[]] w0] eqn:E0; [done|].
  apply mkdir_exist_ok_returned in E0 as (Hf0 & Hd0 & He0 & Hr0 & Hin0).
  rewrite write_text_unfold.
  destruct (denied w0 _) eqn:Hden; [done|].
  destruct (forallb (encodes w0) _); cbn [negb]; [|done].
  destruct (fits w0 _ _); [|done].
  intros [= <- <-]. rewrite <-Hd0. split; [done|]. split; [done|].
  cbn. rewrite insert_insert_eq, Hf0. by repeat split.
Qed.

Lemma question_and_answer_in_report
    (now : datetime) (question answer : str) (outs : list str) :
  infix question (md_content now question answer outs)
  ∧ infix answer (md_content now question answer outs).
Proof.
  unfold md_content, md_head. split.
  - eexists (py "# MCP Query Result" ++ nl ++ nl ++ py "**Date:** "
             ++ strftime_iso now ++ nl ++ nl ++ py "## Question" ++ nl ++ nl), _.
    rewrite <-!(assoc_L (++)). reflexivity.
  - eexists (py "# MCP Query Result" ++ nl ++ nl ++ py "**Date:** "
             ++ strftime_iso now ++ nl ++ nl ++ py "## Question" ++ nl ++ nl
             ++ question ++ nl ++ nl ++ py "## Answer" ++ nl ++ nl), _.
    rewrite <-!(assoc_L (++)). reflexivity.
Qed.

(** *** The characters of the report *)

Section Encodable.

(** An encoding that has ASCII, as the encodings of the usual locales. *)
Variable enc : N → bool.
Hypothesis enc_ascii : ∀ c, c < 0x80 → enc c = true.

Lemma ascii_encodable (s : str) :
  forallb (λ c, c <? 0x80) s = true → forallb enc s = true.
Proof.
  rewrite !forallb_forall. intros H c Hc. apply enc_ascii, N.ltb_lt. by apply H.
Qed.

Lemma uint_str_ascii (d : Decimal.uint) :
  forallb (λ c, c <? 0x80) (uint_str d) = true.
Proof. induction d; simpl; done. Qed.

Lemma str_int_encodable (n : nat) : forallb enc (str_int n) = true.
Proof. apply ascii_encodable, uint_str_ascii. Qed.

Lemma two_digits_encodable (n : nat) : forallb enc (two_digits n) = true.
Proof.
  unfold two_digits. cbn [forallb].
  rewrite !enc_ascii; [done| |];
    match goal with |- digit ?k < _ => pose proof (digit_is_digit k); lia end.
Qed.

Lemma strftime_iso_encodable (d : datetime) : forallb enc (strftime_iso d) = true.
Proof.
  unfold strftime_iso, four_digits.
  rewrite !forallb_app, !two_digits_encodable.
  rewrite !(ascii_encodable (py _)) by reflexivity. done.
Qed.

Lemma infix_encodable (u s : str) :
  infix u s → forallb enc s = true → forallb enc u = true.
Proof.
  intros (pre & post & ->). rewrite !forallb_app, !andb_true_iff. tauto.
Qed.

Lemma caption_of_encodable (u : str) : forallb enc (caption_of u) = true.
Proof.
  apply ascii_encodable. unfold caption_of.
  destruct (_ || _); [reflexivity|]. by destruct (contains _ _).
Qed.

Lemma image_block_encodable (i : nat) (u : str) :
  forallb enc u = true → forallb enc (image_block i u) = true.
Proof.
  intros Hu. unfold image_block. cbv zeta.
  rewrite !forallb_app, !caption_of_encodable, !str_int_encodable, !Hu.
  unfold nl. rewrite !(ascii_encodable (py _)) by reflexivity.
  rewrite !(ascii_encodable [0x0A]) by reflexivity. done.
Qed.

Lemma output_block_encodable (i : nat) (output : str) :
  forallb enc output = true → forallb enc (output_block i output) = true.
Proof.
  intros Ho. unfold output_block, output_body, truncation_marker, nl.
  assert (forallb enc (take 2000 output) = true) as Ht.
  { apply (infix_encodable _ output); [|done].
    exists [], (drop 2000 output). by rewrite take_drop. }
  rewrite !forallb_app, Ht, !str_int_encodable.
  rewrite !(ascii_encodable (py _)) by reflexivity.
  rewrite !(ascii_encodable [0x0A]) by reflexivity.
  case_decide; [|done]. rewrite forallb_app.
  rewrite !(ascii_encodable (py _)) by reflexivity.
  by rewrite !(ascii_encodable [0x0A]) by reflexivity.
Qed.

Lemma blocks_from_encodable (block : nat → str → str) (l : list str) :
  (∀ i x, x ∈ l → forallb enc (block i x) = true) →
  ∀ i, forallb enc (blocks_from block i l) = true.
Proof.
  induction l as [|x l IH]; intros H i; [done|]. simpl.
  rewrite forallb_app, H by left. rewrite IH; [done|].
  intros j y Hy. apply H. by right.
Qed.

(** The report is made of ASCII text and of characters of the question,
    the answer and the tool outputs. *)
Lemma md_content_encodable
    (now : datetime) (question answer : str) (outs : list str) :
  forallb enc question = true → forallb enc answer = true →
  Forall (λ o, forallb enc o = true) outs →
  forallb enc (md_content now question answer outs) = true.
Proof.
  intros Hq Ha Ho. rewrite Forall_forall in Ho.
  unfold md_content, md_head, nl.
  rewrite !forallb_app, Hq, Ha, strftime_iso_encodable.
  rewrite !(ascii_encodable (py _)) by reflexivity.
  rewrite !(ascii_encodable [0x0A]) by reflexivity. cbn [andb].
  apply andb_true_iff. split.
  - unfold images_section. destruct (all_images outs) as [|u us] eqn:E; [done|].
    rewrite <-E. unfold nl. rewrite !forallb_app.
    rewrite !(ascii_encodable (py _)) by reflexivity.
    rewrite !(ascii_encodable [0x0A]) by reflexivity. cbn [andb].
    apply blocks_from_encodable. intros i x Hx. apply image_block_encodable.
    rewrite all_images_bind in Hx. apply list_elem_of_bind in Hx as (o & Hx & Hin).
    apply (infix_encodable _ o); [|by apply Ho].
    by apply extracted_url_occurs_in_text.
  - unfold outputs_section. destruct outs as [|o os] eqn:E; [done|].
    rewrite <-E in *. unfold outputs_open, outputs_close, nl. rewrite !forallb_app.
    rewrite !(ascii_encodable (py _)) by reflexivity.
    rewrite !(ascii_encodable [0x0A]) by reflexivity. cbn [andb].
    rewrite andb_true_r.
    apply blocks_from_encodable. intros i x Hx. by apply output_block_encodable, Ho.
Qed.

End Encodable.



End WrittenReport.

(** ** More on the workflow *)

Section WorkflowAgain.

(** X11: the requests that name no tool of the catalogue change nothing:
    the loop over the requests does what it does on the requests that
    name a tool, in their order. *)
Theorem unknown_requests_change_nothing
    (who : step) (k : slot) (tools : list tool) (calls : list tool_call)
    (r : run_state) :
  run_tool_calls who k tools calls r
  = run_tool_calls who k tools (known tools calls) r.
Proof.
  revert r. induction calls as [|call calls IH]; intros r; [done|].
  unfold known. rewrite filter_cons. fold (known tools calls).
  destruct (find_tool (call_name call) tools) as [t|] eqn:Ef.
  - rewrite decide_True by (by eexists).
    rewrite !run_tool_calls_cons, Ef.
    destruct (ainvoke t (call_args call)); [done|apply IH].
  - rewrite decide_False by apply is_Some_None.
    rewrite run_tool_calls_cons, Ef. apply IH.
Qed.

(** X12: the first tool of the name is the one that runs; a tool that
    shares its name with an earlier one in the catalogue is never found. *)
Theorem find_tool_first (tool_name : str) (before after : list tool) (t : tool) :
  name t = tool_name →
  Forall (λ t', name t' ≠ tool_name) before →
  find_tool tool_name (before ++ t :: after) = Some t.
Proof.
  intros Hn. induction 1 as [|t' before Ht' _ IH]; cbn.
  - by rewrite decide_True.
  - by rewrite decide_False.
Qed.

Lemma find_tool_None (tool_name : str) (tools : list tool) :
  find_tool tool_name tools = None ↔ Forall (λ t, name t ≠ tool_name) tools.
Proof.
  induction tools as [|t tools IH]; cbn; [by split|].
  case_decide as Hn.
  - split; [done|]. by intros [? _]%Forall_cons.
  - rewrite IH. split; [by constructor|by intros [_ ?]%Forall_cons].
Qed.

(** When a requested tool raises, the loop stops there: what the earlier
    requests assigned stays, the later requests are not served. *)
Lemma run_tool_calls_raises
    (who : step) (k : slot) (tools : list tool)
    (skipped rest : list tool_call) (call : tool_call) (t : tool) (e : exn)
    (r : run_state) :
  Forall (λ c, find_tool (call_name c) tools = None) skipped →
  find_tool (call_name call) tools = Some t →
  ainvoke t (call_args call) = inl e →
  run_tool_calls who k tools (skipped ++ call :: rest) r = (inl e, r).
Proof.
  intros Hs Hf He. induction Hs as [|c skipped Hc _ IH]; cbn [app].
  - by rewrite run_tool_calls_cons, Hf, He.
  - by rewrite run_tool_calls_cons, Hc.
Qed.

(** X13: a failure of a tool is not absorbed. When the first request of
    the planner that names a known tool makes that tool raise, the whole
    workflow ends with that exception: nothing has been assigned, the
    news node and the report node do not run, and the final report stays
    empty. *)
Theorem tool_failure_aborts_workflow
    (env : environment) (tools : list tool) (resp : ai_response)
    (skipped rest : list tool_call) (call : tool_call) (t : tool) (e : exn) :
  get_tools env GetNasa = inr tools →
  llm_with_tools env (messages initial_state ++ [nasa_request]) = inr resp →
  tool_calls resp = skipped ++ call :: rest →
  Forall (λ c, find_tool (call_name c) tools = None) skipped →
  find_tool (call_name call) tools = Some t →
  ainvoke t (call_args call) = inl e →
  (ainvoke_workflow env).1 = inl e
  ∧ (ainvoke_workflow env).2.2 = []
  ∧ nasa_data (ainvoke_workflow env).2.1 = []
  ∧ news_data (ainvoke_workflow env).2.1 = []
  ∧ final_report (ainvoke_workflow env).2.1 = [].
Proof.
  intros Ht Hr Hcalls Hs Hf He. unfold ainvoke_workflow.
  rewrite workflow_unfold, get_nasa_data_unfold, Ht. cbn zeta. cbn [fst snd].
  rewrite Hr, Hcalls, (run_tool_calls_raises _ _ _ _ _ _ _ _ _ Hs Hf He).
  done.
Qed.

Lemma writes_to_other (k k' : slot) (who : step) (l : list write) :
  k ≠ k' → Forall (λ w, by_step w = who ∧ to_slot w = k') l → writes_to k l = [].
Proof.
  intros Hne. induction 1 as [|w l [_ Hw] _ IH]; [reflexivity|].
  unfold writes_to in *. rewrite filter_cons, decide_False by congruence. done.
Qed.

(** X14: the final report is assigned only at the very end of a run that
    came through: whenever the workflow ends with an exception, whichever
    collaborator or tool raised it, [final_report] has never been
    assigned and is still the empty string of the initial state. *)
Theorem failed_run_has_no_report (env : environment) (e : exn) :
  (ainvoke_workflow env).1 = inl e →
  final_report (ainvoke_workflow env).2.1 = []
  ∧ writes_to FinalReport (ainvoke_workflow env).2.2 = [].
Proof.
  unfold ainvoke_workflow. rewrite workflow_unfold.
  destruct (get_nasa_data_spec env initial_state [])
    as (st1 & l1 & (E1 & A1 & O1 & _) & _).
  destruct (get_nasa_data env (initial_state, [])) as [r1 [st1' lg1]].
  cbn [fst snd app] in E1. injection E1 as -> ->.
  pose proof (O1 FinalReport ltac:(done)) as Of1. cbn [get_slot] in Of1.
  pose proof (writes_to_other FinalReport NasaData GetNasa l1 ltac:(done) A1) as W1.
  destruct r1 as [e1|[]]; [done|].
  destruct (get_news_data_spec env st1 l1) as (st2 & l2 & (E2 & A2 & O2 & _) & _).
  destruct (get_news_data env (st1, l1)) as [r2 [st2' lg2]].
  cbn [fst snd] in E2. injection E2 as -> ->.
  pose proof (O2 FinalReport ltac:(done)) as Of2. cbn [get_slot] in Of2.
  pose proof (writes_to_other FinalReport NewsData GetNews l2 ltac:(done) A2) as W2.
  assert (writes_to FinalReport (l1 ++ l2) = []) as W12.
  { unfold writes_to in *. by rewrite filter_app, W1, W2. }
  destruct r2 as [e2|[]].
  { intros _. cbn [fst snd]. split; [by rewrite Of2, Of1|done]. }
  rewrite create_report_unfold. cbn [fst snd].
  destruct (llm env _) as [e3|rep]; [|done].
  intros _. cbn [fst snd]. split; [by rewrite Of2, Of1|done].
Qed.

Lemma run_tool_calls_messages
    (who : step) (k : slot) (tools : list tool) (calls : list tool_call)
    (r : run_state) :
  messages (run_tool_calls who k tools calls r).2.1 = messages r.1.
Proof.
  destruct r as [st log].
  destruct (run_tool_calls_spec who k tools calls st log)
    as (st' & log' & E & _ & Hm & _).
  by rewrite E.
Qed.

(** X15: the conversation of the state only ever gains the request of the
    first node: after any run, completed or not, it is the initial
    message followed by that request (or the initial message alone when
    the tool host failed at once). The answers of the tools and of the
    models are never appended to it. *)
Theorem conversation_gains_only_the_first_request (env : environment) :
  messages (ainvoke_workflow env).2.1
  = match get_tools env GetNasa with
    | inl _ => messages initial_state
    | inr _ => messages initial_state ++ [nasa_request]
    end.
Proof.
  unfold ainvoke_workflow. rewrite workflow_unfold, get_nasa_data_unfold.
  destruct (get_tools env GetNasa) as [e|tools]; [done|]. cbn zeta.
  assert (∀ r : (exn + ()) * run_state,
            messages r.2.1 = messages initial_state ++ [nasa_request] →
            messages (match r with
                      | (inl e, r1) => (inl e, r1)
                      | (inr _, r1) =>
                          match get_news_data env r1 with
                          | (inl e, r2) => (inl e, r2)
                          | (inr _, r2) => create_report env r2
                          end
                      end).2.1 = messages initial_state ++ [nasa_request]) as Hrest.
  { intros [[e|[]] r1] Hm; [done|]. cbn [fst snd] in Hm.
    assert (messages (get_news_data env r1).2.1 = messages r1.1) as Hn.
    { rewrite get_news_data_unfold.
      destruct (get_tools env GetNews); [done|].
      destruct (llm_with_tools env [news_request]); [done|].
      apply run_tool_calls_messages. }
    destruct (get_news_data env r1) as [[e|[]] r2]; cbn [fst snd] in *;
      [congruence|].
    rewrite create_report_unfold.
    destruct (llm env _); cbn [fst snd]; [congruence|].
    rewrite messages_set_slot. congruence. }
  apply Hrest. cbn [fst snd].
  destruct (llm_with_tools env _) as [e|resp]; [done|].
  by rewrite run_tool_calls_messages.
Qed.

End WorkflowAgain.

(** ** More on the tools of [server.py] *)

Section ServerAgain.

Lemma format_from_lookup (results : list Server.search_result) :
  ∀ (k i : nat) (r : Server.search_result),
    results !! i = Some r →
    Server.format_from k results !! i = Some (Server.format_result (k + i) r).
Proof.
  induction results as [|x results IH]; intros k i r Hi;
    [by rewrite lookup_nil in Hi|].
  destruct i as [|i]; cbn [Server.format_from lookup list_lookup] in *.
  - injection Hi as ->. by rewrite Nat.add_0_r.
  - change (Server.format_from (S k) results !! i
            = Some (Server.format_result (k + S i) r)).
    rewrite (IH (S k) i r Hi). by rewrite Nat.add_succ_r.
Qed.

Lemma format_from_length (results : list Server.search_result) (k : nat) :
  length (Server.format_from k results) = length results.
Proof. revert k. induction results as [|x l IH]; intros k; cbn; [done|]. by rewrite IH. Qed.

(** X16: when the search itself succeeds, [web_search] does not raise.
    It answers [No results found for: <query>] exactly when the list of
    results is empty; otherwise every result is listed, numbered from 1
    in the order of the reply. *)
Theorem web_search_lists_every_result
    (m : Server.module) (query : str) (results : list Server.search_result) :
  Server.search (Server.client m) query = inr results →
  ∃ text,
    Server.web_search m query = inr text
    ∧ (text = py "No results found for: " ++ query ↔ results = [])
    ∧ (results ≠ [] →
       text = py "Search results for: " ++ query ++ nl ++ nl
              ++ join (nl ++ nl) (Server.format_from 1 results))
    ∧ length (Server.format_from 1 results) = length results
    ∧ (∀ i r, results !! i = Some r →
         Server.format_from 1 results !! i = Some (Server.format_result (S i) r)).
Proof.
  intros Hs. unfold Server.web_search. rewrite Hs.
  destruct results as [|r results].
  - eexists. split; [reflexivity|]. split; [done|]. split; [done|]. split; [done|].
    intros i r Hi. by rewrite lookup_nil in Hi.
  - eexists. split; [reflexivity|]. split.
    { split; [|done]. change (Server.format_from 1 (r :: results))
        with (Server.format_result 1 r :: Server.format_from 2 results).
      intros E. exfalso. by injection E. }
    split; [done|]. split; [apply format_from_length|].
    intros i r' Hi. apply (format_from_lookup _ 1 i r' Hi).
Qed.

(** X17: the four tools that call a web service never let a
    [RequestException] out: a failure of the network comes back as a text
    that starts with [Error]. *)
Theorem request_exception_never_escapes
    (capitalize : str → str) (m : Server.module)
    (news : Server.http) (apod : Server.apod_http) (mars : Server.mars_http)
    (country : str) (category q : option str)
    (week_ago query : str) (from_date : option str) (sort_by : str)
    (date : option str) (rover : str) (sol : option Z) (camera : option str)
    (msg : str) :
  Server.get_top_headlines m news country category q ≠ inl (RequestException msg)
  ∧ Server.search_news m news week_ago query from_date sort_by
    ≠ inl (RequestException msg)
  ∧ Server.get_astronomy_picture m apod date ≠ inl (RequestException msg)
  ∧ Server.get_mars_rover_photos capitalize m mars rover sol camera
    ≠ inl (RequestException msg).
Proof.
  unfold Server.get_top_headlines, Server.search_news,
    Server.get_astronomy_picture, Server.get_mars_rover_photos.
  cbn zeta. repeat split.
  - destruct (Server.absent _); [done|].
    destruct (news _ _) as [[]|data]; try done. by case_decide.
  - destruct (Server.absent (Server.NEWS_API_KEY m)); [done|].
    destruct (news _ _) as [[]|data]; try done. by case_decide.
  - by destruct (apod _ _) as [[]|data].
  - by destruct (mars _ _) as [[]|[|p photos]].
Qed.

(** What the tools answer when the network fails. *)
Lemma network_failure_texts
    (capitalize : str → str) (m : Server.module)
    (news : Server.http) (apod : Server.apod_http) (mars : Server.mars_http)
    (date : option str) (rover : str) (sol : option Z) (camera : option str)
    (msg : str) :
  apod (py "https://api.nasa.gov/planetary/apod") (Server.apod_params m date)
  = inl (RequestException msg) →
  mars (Server.mars_url rover)
    (Server.mars_params m (Server.mars_sol rover sol) camera)
  = inl (RequestException msg) →
  Server.get_astronomy_picture m apod date
  = inr (py "Error fetching astronomy picture: " ++ msg)
  ∧ Server.get_mars_rover_photos capitalize m mars rover sol camera
    = inr (py "Error fetching Mars rover photos: " ++ msg).
Proof.
  intros Ha Hm. unfold Server.get_astronomy_picture, Server.get_mars_rover_photos.
  cbn zeta. by rewrite Ha, Hm.
Qed.

End ServerAgain.

(** ** [context7_search] *)

Section Context7Properties.

Variable unicode_lower : str → str.

Lemma context_of_cases (context_type : str) :
  Server.context_of context_type = Server.general_context
  ∨ Server.context_of context_type = Server.technical_context
  ∨ Server.context_of context_type = Server.documentation_context.
Proof. unfold Server.context_of. repeat case_decide; auto. Qed.

Lemma relevant_info_sublist (query_lower : str) (context_data : list (str * str)) :
  Server.relevant_info unicode_lower query_lower context_data
  `sublist_of` ((λ e, e.1 ++ py ": " ++ e.2) <$> context_data).
Proof.
  induction context_data as [|e l IH]; [done|].
  unfold Server.relevant_info in *. cbn [omap list_omap fmap list_fmap].
  destruct (Server.relevant _ _ e); [by constructor|by constructor].
Qed.

Lemma relevant_info_elem (query_lower : str) (context_data : list (str * str))
    (e : str * str) :
  e ∈ context_data → Server.relevant unicode_lower query_lower e = true →
  e.1 ++ py ": " ++ e.2 ∈ Server.relevant_info unicode_lower query_lower context_data.
Proof.
  intros He Hr. unfold Server.relevant_info. apply list_elem_of_omap.
  exists e. split; [done|]. by rewrite Hr.
Qed.

(** X18: an entry of the chosen context is listed whenever its key
    occurs in the lower-cased query, or a word of the lower-cased query
    occurs in its lower-cased text. The answer then is the heading
    followed by the listed entries, which stand in the order of the
    dictionary; a context type that is not a key of [contexts] is
    answered from the general context. *)
Theorem context7_lists_matching_entry
    (query context_type key value : str) :
  (key, value) ∈ Server.context_of context_type →
  infix key (Server.lower unicode_lower query)
  ∨ (∃ word, word ∈ Server.split (Server.lower unicode_lower query)
             ∧ infix word (Server.lower unicode_lower value)) →
  ∃ info,
    Server.context7_search unicode_lower query context_type
    = py "Context7 found the following information:" ++ nl ++ join nl info
    ∧ key ++ py ": " ++ value ∈ info
    ∧ info `sublist_of` ((λ e, e.1 ++ py ": " ++ e.2)
                         <$> Server.context_of context_type)
    ∧ (context_type ≠ py "technical" → context_type ≠ py "documentation" →
       Server.context_of context_type = Server.general_context).
Proof.
  intros He Hrel.
  assert (Server.relevant unicode_lower (Server.lower unicode_lower query)
            (key, value) = true) as Hr.
  { unfold Server.relevant. cbn [fst snd]. apply orb_true_iff.
    destruct Hrel as [Hk|(word & Hw & Hv)].
    - left. by apply contains_spec.
    - right. apply existsb_exists. exists word. split.
      + by apply list_elem_of_In.
      + by apply contains_spec. }
  pose proof (relevant_info_elem _ _ _ He Hr) as Hin. cbn [fst snd] in Hin.
  exists (Server.relevant_info unicode_lower (Server.lower unicode_lower query)
            (Server.context_of context_type)).
  split.
  - unfold Server.context7_search. cbn zeta.
    destruct (Server.relevant_info _ _ _) as [|l ls]; [by apply elem_of_nil in Hin|done].
  - split; [done|]. split; [apply relevant_info_sublist|].
    intros H1 H2. unfold Server.context_of.
    repeat case_decide; done.
Qed.

Lemma lower_ascii (s : str) :
  Server.is_ascii s = true → Server.lower unicode_lower s = Server.ascii_lower <$> s.
Proof. intros H. unfold Server.lower. by rewrite H. Qed.

Lemma split_from_spaces (s : str) :
  Forall (λ c, is_space c = true) s → Server.split_from [] s = [].
Proof. induction 1 as [|c s Hc _ IH]; [done|]. cbn. by rewrite Hc. Qed.

Lemma ascii_lower_space (c : N) : is_space c = true → Server.ascii_lower c = c.
Proof.
  intros Hc. unfold Server.ascii_lower.
  destruct ((0x41 <=? c) && (c <=? 0x5A)) eqn:E; [|done].
  apply andb_true_iff in E as [E1%N.leb_le E2%N.leb_le].
  exfalso. unfold is_space in Hc.
  repeat (apply orb_true_iff in Hc as [Hc|Hc]);
    repeat (apply andb_true_iff in Hc as [? ?]);
    repeat match goal with
           | H : (_ <=? _) = true |- _ => apply N.leb_le in H
           | H : (_ =? _) = true |- _ => apply N.eqb_eq in H
           end; lia.
Qed.

Lemma keys_start_with_a_letter (context_type : str) :
  Forall (λ e, ∃ c k, e.1 = c :: k ∧ is_space c = false)
    (Server.context_of context_type).
Proof.
  destruct (context_of_cases context_type) as [->|[->| ->]];
    repeat (apply List.Forall_cons; [by eexists _, _|]); apply List.Forall_nil.
Qed.

(** X19: a query without a word, empty or made of ASCII blanks only,
    finds nothing in any context: the answer is the sentence that quotes
    the query and the context type as they were given. *)
Theorem context7_blank_query_finds_nothing (query context_type : str) :
  Server.is_ascii query = true →
  Forall (λ c, is_space c = true) query →
  Server.context7_search unicode_lower query context_type
  = py "Context7: No specific information found for '" ++ query ++ py "' in "
    ++ context_type
    ++ py " context. Try refining your query or changing the context type.".
Proof.
  intros Ha Hs.
  assert (Server.lower unicode_lower query = query) as Hl.
  { rewrite lower_ascii by done. clear Ha.
    induction Hs as [|c s Hc _ IH]; [done|]. csimpl.
    by rewrite IH, ascii_lower_space. }
  unfold Server.context7_search. cbn zeta. rewrite Hl.
  assert (Server.relevant_info unicode_lower query (Server.context_of context_type)
          = []) as ->; [|done].
  pose proof (keys_start_with_a_letter context_type) as Hk.
  induction Hk as [|e l (c & k & Ek & Hc) _ IH]; [done|].
  unfold Server.relevant_info in *. cbn [omap list_omap].
  assert (Server.relevant unicode_lower query e = false) as ->.
  { unfold Server.relevant, Server.split. rewrite split_from_spaces by done.
    cbn [existsb]. rewrite orb_false_r. apply contains_false.
    intros (pre & post & E). rewrite Ek in E.
    rewrite Forall_forall in Hs. specialize (Hs c). rewrite E in Hs.
    rewrite Hs in Hc; [done|]. set_solver. }
  by rewrite IH.
Qed.

End Context7Properties.

(** ** The properties above on concrete inputs *)

Lemma extracted_urls_are_http_urls_witness :
  py "https://apod.nasa.gov/x.jpg" ∈ extract_images_from_text apod_text
  ∧ url_shaped (py "https://apod.nasa.gov/x.jpg")
  ∧ Forall (λ c, is_space c = false) (py "https://apod.nasa.gov/x.jpg").
Proof.
  assert (py "https://apod.nasa.gov/x.jpg" ∈ extract_images_from_text apod_text)
    as H by (vm_compute; constructor).
  destruct (extracted_urls_are_http_urls apod_text _ H) as (H1 & _ & H3).
  split; [exact H|]. split; [exact H1|exact H3].
Defined.

Lemma unlabelled_urls_end_in_image_extension_witness :
  png_url ∈ extract_images_from_text (py "see " ++ png_url)
  ∧ ∃ stem ext, png_url = stem ++ py "." ++ ext ∧ image_ext ext.
Proof.
  assert (png_url ∈ extract_images_from_text (py "see " ++ png_url))
    as H by (vm_compute; constructor).
  assert (findall pat_image_url (py "see " ++ png_url) = []) as E1 by (by vm_compute).
  assert (findall pat_hd_image (py "see " ++ png_url) = []) as E2 by (by vm_compute).
  split; [exact H|].
  apply (unlabelled_urls_end_in_image_extension (py "see " ++ png_url) png_url H).
  - rewrite E1. apply not_elem_of_nil.
  - rewrite E2. apply not_elem_of_nil.
Defined.

Lemma no_http_no_images_witness :
  Forall (λ o, contains (py "http") o = false) quiet_outputs
  ∧ all_images quiet_outputs = []
  ∧ md_content a_moment (py "q") (py "a") quiet_outputs
    = md_head a_moment (py "q") (py "a") ++ outputs_section quiet_outputs.
Proof.
  assert (Forall (λ o, contains (py "http") o = false) quiet_outputs) as H
    by (by repeat constructor).
  destruct (no_http_no_images a_moment (py "q") (py "a") quiet_outputs H)
    as (_ & H2 & H3).
  split; [exact H|]. split; [exact H2|exact H3].
Defined.

Lemma extracted_image_is_shown_witness :
  all_images [apod_text] !! 0%nat = Some (py "https://apod.nasa.gov/x.jpg")
  ∧ infix (image_block 1 (py "https://apod.nasa.gov/x.jpg"))
      (md_content a_moment (py "q") (py "a") [apod_text])
  ∧ caption_of (py "https://apod.nasa.gov/x.jpg") = py "Astronomy Picture".
Proof.
  assert (all_images [apod_text] !! 0%nat = Some (py "https://apod.nasa.gov/x.jpg"))
    as H by (by vm_compute).
  destruct (extracted_image_is_shown a_moment (py "q") (py "a") [apod_text] 0 _ H)
    as (H1 & _).
  split; [exact H|]. split; [exact H1|reflexivity].
Defined.

Lemma picture_url_shaped : url_shaped (Server.apod_url Server.picture_of_the_day).
Proof.
  exists (py "s"), (py "apod.nasa.gov/apod/image/n.jpg").
  split; [reflexivity|]. split; [by right|]. split; [done|].
  by repeat constructor.
Qed.

Lemma astronomy_picture_is_extracted_witness :
  Server.media_type Server.picture_of_the_day = Some (py "image")
  ∧ ∃ text,
      Server.get_astronomy_picture Server.keyless Server.apod_service None = inr text
      ∧ Server.apod_url Server.picture_of_the_day ∈ extract_images_from_text text.
Proof.
  split; [reflexivity|].
  destruct (astronomy_picture_is_extracted Server.keyless Server.apod_service None
              Server.picture_of_the_day eq_refl eq_refl picture_url_shaped)
    as (text & H1 & H2 & _).
  exists text. split; [exact H1|exact H2].
Defined.

Lemma rover_photo_url_shaped : image_url_shaped (Server.img_src Server.rover_photo).
Proof.
  exists [], (py "mars.jpl.nasa.gov/msl-raw-images/1000MR"), (py "jpg").
  split; [reflexivity|]. split; [by left|]. split; [done|].
  split; [by repeat constructor|by left].
Qed.

Lemma rover_photo_is_extracted_witness :
  [Server.rover_photo; Server.rover_photo] !! 1%nat = Some Server.rover_photo
  ∧ ∃ text,
      Server.get_mars_rover_photos Server.as_is Server.keyless Server.rover_service
        (py "curiosity") None None = inr text
      ∧ Server.img_src Server.rover_photo ∈ extract_images_from_text text.
Proof.
  split; [reflexivity|].
  exact (rover_photo_is_extracted Server.as_is Server.keyless Server.rover_service
           (py "curiosity") None None [Server.rover_photo; Server.rover_photo] 1
           Server.rover_photo eq_refl ltac:(lia) eq_refl rover_photo_url_shaped).
Defined.

Lemma utf8_ascii (c : N) : c < 0x80 → utf8 c = true.
Proof. intros Hc. unfold utf8. destruct (N.leb_spec 0xD800 c); [lia|done]. Qed.



Lemma find_tool_first_witness :
  name apod_tool = py "get_astronomy_picture"
  ∧ find_tool (py "get_astronomy_picture") ([news_tool] ++ apod_tool :: [failing_tool])
    = Some apod_tool.
Proof.
  split; [reflexivity|].
  apply (find_tool_first (py "get_astronomy_picture") [news_tool] [failing_tool]
           apod_tool eq_refl).
  by repeat constructor.
Defined.

Lemma tool_failure_aborts_workflow_witness :
  find_tool (py "get_astronomy_picture") [failing_tool; news_tool] = Some failing_tool
  ∧ (ainvoke_workflow picture_tool_down).1 = inl (CollaboratorError (py "service down"))
  ∧ (ainvoke_workflow picture_tool_down).2.2 = []
  ∧ final_report (ainvoke_workflow picture_tool_down).2.1 = [].
Proof.
  split; [reflexivity|].
  destruct (tool_failure_aborts_workflow picture_tool_down [failing_tool; news_tool]
              one_unknown_one_valid [ask (py "no_such_tool")] []
              (ask (py "get_astronomy_picture")) failing_tool
              (CollaboratorError (py "service down"))
              eq_refl eq_refl eq_refl
              ltac:(by repeat constructor) eq_refl eq_refl)
    as (H1 & H2 & _ & _ & H5).
  split; [exact H1|]. split; [exact H2|exact H5].
Defined.

Lemma failed_run_has_no_report_witness :
  (ainvoke_workflow picture_tool_down).1 = inl (CollaboratorError (py "service down"))
  ∧ final_report (ainvoke_workflow picture_tool_down).2.1 = []
  ∧ writes_to FinalReport (ainvoke_workflow picture_tool_down).2.2 = [].
Proof.
  assert ((ainvoke_workflow picture_tool_down).1
          = inl (CollaboratorError (py "service down"))) as H by reflexivity.
  destruct (failed_run_has_no_report picture_tool_down _ H) as [H1 H2].
  split; [exact H|]. split; [exact H1|exact H2].
Defined.

Lemma web_search_lists_every_result_witness :
  Server.search (Server.client Server.searching) (py "webb") = inr [Server.one_result]
  ∧ ∃ text,
      Server.web_search Server.searching (py "webb") = inr text
      ∧ (text = py "No results found for: " ++ py "webb" ↔ [Server.one_result] = []).
Proof.
  split; [reflexivity|].
  destruct (web_search_lists_every_result Server.searching (py "webb")
              [Server.one_result] eq_refl) as (text & H1 & H2 & _).
  exists text. split; [exact H1|exact H2].
Defined.

Lemma context7_lists_matching_entry_witness :
  (py "api", py "Provides RESTful API endpoints for integration.")
    ∈ Server.context_of (py "technical")
  ∧ infix (py "api") (Server.lower Server.as_is (py "What is the API?"))
  ∧ ∃ info,
      Server.context7_search Server.as_is (py "What is the API?") (py "technical")
      = py "Context7 found the following information:" ++ nl ++ join nl info
      ∧ py "api" ++ py ": " ++ py "Provides RESTful API endpoints for integration."
        ∈ info.
Proof.
  assert ((py "api", py "Provides RESTful API endpoints for integration.")
            ∈ Server.context_of (py "technical")) as H1
    by (vm_compute; right; left).
  assert (infix (py "api") (Server.lower Server.as_is (py "What is the API?"))) as H2
    by (by exists (py "what is the "), (py "?")).
  destruct (context7_lists_matching_entry Server.as_is (py "What is the API?")
              (py "technical") _ _ H1 (or_introl H2)) as (info & E & Hin & _).
  split; [exact H1|]. split; [exact H2|]. exists info. split; [exact E|exact Hin].
Defined.

Lemma context7_blank_query_finds_nothing_witness :
  Server.is_ascii (py "  ") = true
  ∧ Forall (λ c, is_space c = true) (py "  ")
  ∧ Server.context7_search Server.as_is (py "  ") (py "recipes")
    = py "Context7: No specific information found for '" ++ py "  " ++ py "' in "
      ++ py "recipes"
      ++ py " context. Try refining your query or changing the context type.".
Proof.
  assert (Forall (λ c, is_space c = true) (py "  ")) as H by (by repeat constructor).
  split; [reflexivity|]. split; [exact H|].
  exact (context7_blank_query_finds_nothing Server.as_is (py "  ") (py "recipes")
           eq_refl H).
Defined.
